(** * Frame extraction helpers of the video frame extractor

    A shallow embedding of [src/lib/utils.ts] (timeToSeconds, extractFrames,
    extractActualFrames, analyzeVideoFrames) and of the event handlers of
    [src/app/page.tsx], followed by the properties the specification states
    about them.

    Numbers.  A JavaScript [number] is modelled by [number] below: a
    rational, or one of the three special values NaN, +Infinity, -Infinity,
    with the IEEE rules for the special values and for division by zero.
    The operations of [Js] are exact on rationals.  The operations of
    [Js64] round every finite result to the nearest binary64 value, ties to
    even, as the operators of JavaScript do on doubles; they are used where
    a rounded result is floored, compared with a frame count or stored as a
    timestamp: in extractFrames, in the frame estimate of
    analyzeVideoFrames and in captureFrame.  The sign of zero is not
    modelled.  It shows only in a division by zero, where the divisor is
    taken for +0; the statement that depends on the sign of such a
    quotient, the frame count of extractFrames, leaves a zero interval
    out.

    Asynchrony.  The helpers are promise executors that register a browser
    callback and return.  The browser is modelled by the list of events it
    delivers (one per completed seek, one per presented frame); a helper is
    the fold of its callback over that list, for as long as the callback is
    still registered.  A promise is [Pending], [Resolved] or [Rejected], and
    settles once. *)

From Stdlib Require Import ZArith QArith Qround Qpower String List Bool Lia Lqa.
Import ListNotations.

Local Open Scope string_scope.
Local Open Scope Z_scope.
Local Open Scope list_scope.

(** ** JavaScript numbers *)

Module Js.

Inductive number : Type :=
| NaN
| PInf
| NInf
| Fin (q : Q).

Declare Scope js_scope.
Delimit Scope js_scope with js.
Bind Scope js_scope with number.

Definition of_Z (z : Z) : number := Fin (inject_Z z).
Definition of_nat (n : nat) : number := of_Z (Z.of_nat n).

(** Sign of a number: [Gt] positive, [Lt] negative, [Eq] zero (or NaN). *)
Definition sgn (x : number) : comparison :=
  match x with
  | NaN => Eq
  | PInf => Gt
  | NInf => Lt
  | Fin q => (q ?= 0)%Q
  end.

Definition sgn_mul (a b : comparison) : comparison :=
  match a, b with
  | Eq, _ | _, Eq => Eq
  | Gt, Gt | Lt, Lt => Gt
  | _, _ => Lt
  end.

(** The infinity of a given sign; the sign [Eq] stands for an undefined
    form (0 * Infinity, 0 / 0) and gives NaN. *)
Definition inf_of (c : comparison) : number :=
  match c with
  | Gt => PInf
  | Lt => NInf
  | Eq => NaN
  end.

Definition add (x y : number) : number :=
  match x, y with
  | NaN, _ | _, NaN => NaN
  | PInf, NInf | NInf, PInf => NaN
  | PInf, _ | _, PInf => PInf
  | NInf, _ | _, NInf => NInf
  | Fin a, Fin b => Fin (a + b)
  end.

Definition sub (x y : number) : number :=
  match x, y with
  | NaN, _ | _, NaN => NaN
  | PInf, PInf | NInf, NInf => NaN
  | PInf, _ | _, NInf => PInf
  | NInf, _ | _, PInf => NInf
  | Fin a, Fin b => Fin (a - b)
  end.

Definition mul (x y : number) : number :=
  match x, y with
  | NaN, _ | _, NaN => NaN
  | Fin a, Fin b => Fin (a * b)
  | _, _ => inf_of (sgn_mul (sgn x) (sgn y))
  end.

(** Division.  A finite non-zero number over zero is an infinity of the
    sign of the numerator, 0 / 0 is NaN, and a finite number over an
    infinity is zero. *)
Definition div (x y : number) : number :=
  match x, y with
  | NaN, _ | _, NaN => NaN
  | Fin a, Fin b => if Qeq_bool b 0 then inf_of (a ?= 0)%Q else Fin (a / b)
  | Fin _, _ => Fin 0
  | _, Fin b => inf_of (sgn_mul (sgn x) (if Qeq_bool b 0 then Gt else sgn y))
  | _, _ => NaN
  end.

(** Comparison; [None] when an operand is NaN. *)
Definition cmp (x y : number) : option comparison :=
  match x, y with
  | NaN, _ | _, NaN => None
  | PInf, PInf | NInf, NInf => Some Eq
  | PInf, _ | _, NInf => Some Gt
  | NInf, _ | _, PInf => Some Lt
  | Fin a, Fin b => Some (a ?= b)%Q
  end.

Definition ltb (x y : number) : bool :=
  match cmp x y with Some Lt => true | _ => false end.
Definition leb (x y : number) : bool :=
  match cmp x y with Some Lt | Some Eq => true | _ => false end.
Definition gtb (x y : number) : bool := ltb y x.
Definition geb (x y : number) : bool := leb y x.

(** [Math.floor], [Math.min] (two arguments) and [Math.round]. *)
Definition floor (x : number) : number :=
  match x with
  | Fin q => of_Z (Qfloor q)
  | _ => x
  end.

Definition min (x y : number) : number :=
  match cmp x y with
  | None => NaN
  | Some Gt => y
  | Some _ => x
  end.

Definition round (x : number) : number := floor (add x (Fin (1 # 2))).

(** Truthiness of a number: zero and NaN are falsy. *)
Definition truthy (x : number) : bool :=
  match x with
  | NaN => false
  | Fin q => negb (Qeq_bool q 0)
  | _ => true
  end.

(** A property that may be missing from an object reads as [None]
    ([undefined]); [undefined] is falsy and converts to NaN in arithmetic. *)
Definition truthy_opt (x : option number) : bool :=
  match x with
  | Some n => truthy n
  | None => false
  end.

Definition to_number (x : option number) : number :=
  match x with
  | Some n => n
  | None => NaN
  end.

(** Mathematical equality of numbers (rationals up to [Qeq]). *)
Definition eq (x y : number) : Prop :=
  match x, y with
  | NaN, NaN | PInf, PInf | NInf, NInf => True
  | Fin a, Fin b => (a == b)%Q
  | _, _ => False
  end.

Definition is_nan (x : number) : bool :=
  match x with NaN => true | _ => false end.

(** [Number.isFinite] *)
Definition is_finite (x : number) : bool :=
  match x with Fin _ => true | _ => false end.

Infix "+" := add : js_scope.
Infix "-" := sub : js_scope.
Infix "*" := mul : js_scope.
Infix "/" := div : js_scope.
Infix "<?" := ltb : js_scope.
Infix "<=?" := leb : js_scope.
Infix ">?" := gtb : js_scope.
Infix ">=?" := geb : js_scope.
Infix "==" := eq : js_scope.

End Js.

Import Js.

(** ** Binary64 arithmetic

    JavaScript numbers are IEEE 754 doubles: the result of an operator is
    the exact result rounded to the nearest double, to the one with an even
    significand when two are equally near, and to an infinity when the
    rounded value does not fit. *)

Module Js64.

Definition pow2 (e : Z) : Q := Qpower 2 e.

(** The integer nearest to [x]; the even one when two are equally near. *)
Definition round_half_even (x : Q) : Z :=
  let f := Qfloor x in
  match (x - inject_Z f ?= 1 # 2)%Q with
  | Lt => f
  | Gt => f + 1
  | Eq => if Z.even f then f else f + 1
  end.

(** The binary exponent of a positive [x]: 2^k <= x < 2^(k+1). *)
Definition ilog2 (x : Q) : Z :=
  let k := Z.log2 (Qnum x) - Z.log2 (Zpos (Qden x)) in
  if Qle_bool (pow2 k) x then k else k - 1.

(** The binary exponent of the last place of the significand of a
    positive [x]: 52 places below its own exponent, and no lower than
    -1074 (subnormal numbers). *)
Definition last_place (x : Q) : Z := Z.max (ilog2 x - 52) (-1074).

(** A positive [x] rounded to a multiple of 2^(last place). *)
Definition nearest (x : Q) : Q :=
  (inject_Z (round_half_even (x / pow2 (last_place x)))
   * pow2 (last_place x))%Q.

(** A positive [x] rounded to a double; [None] when the rounded value is
    2^1024 or more. *)
Definition round_pos (x : Q) : option Q :=
  let v := nearest x in
  if Qle_bool (pow2 1024) v then None else Some (Qred v).

Definition round (x : Q) : number :=
  match (x ?= 0)%Q with
  | Eq => Fin 0
  | Gt => match round_pos x with Some v => Fin v | None => PInf end
  | Lt => match round_pos (- x) with Some v => Fin (- v) | None => NInf end
  end.

(** The double that a decimal literal denotes. *)
Definition double (q : Q) : number := round q.

Definition add (x y : number) : number :=
  match x, y with
  | Fin a, Fin b => round (a + b)
  | _, _ => Js.add x y
  end.

Definition sub (x y : number) : number :=
  match x, y with
  | Fin a, Fin b => round (a - b)
  | _, _ => Js.sub x y
  end.

Definition mul (x y : number) : number :=
  match x, y with
  | Fin a, Fin b => round (a * b)
  | _, _ => Js.mul x y
  end.

Definition div (x y : number) : number :=
  match x, y with
  | Fin a, Fin b => if Qeq_bool b 0 then inf_of (a ?= 0)%Q else round (a / b)
  | _, _ => Js.div x y
  end.

End Js64.

Declare Scope f64_scope.
Delimit Scope f64_scope with f64.

Arguments Js64.add (x y)%_f64.
Arguments Js64.sub (x y)%_f64.
Arguments Js64.mul (x y)%_f64.
Arguments Js64.div (x y)%_f64.

Infix "+" := Js64.add : f64_scope.
Infix "-" := Js64.sub : f64_scope.
Infix "*" := Js64.mul : f64_scope.
Infix "/" := Js64.div : f64_scope.

(** Destructuring default: [const { x = d } = options]. *)
Definition default {A : Type} (d : A) (o : option A) : A :=
  match o with
  | Some a => a
  | None => d
  end.

(** ** utils.ts: timeToSeconds *)

Record TimeValue : Type := mkTime {
  hours : number;
  minutes : number;
  seconds : number
}.

Definition timeToSeconds (time : TimeValue) : number :=
  (hours time * of_Z 3600 + minutes time * of_Z 60 + seconds time)%js.

(** ** The frame record *)

Record VideoFrameMetadata : Type := mkMetadata {
  presentationTime : number;
  expectedDisplayTime : number;
  width : number;
  height : number;
  mediaTime : number;
  presentedFrames : number;
  processingDuration : number
}.

Record FrameInfo : Type := mkFrame {
  dataUrl : string;
  timestamp : number;
  frameNumber : number;
  metadata : option VideoFrameMetadata
}.

(** A promise. *)
Inductive Thrown : Type :=
| ErrorObject (message : string)   (* an instance of Error *)
| OtherValue.                      (* any other rejection reason *)

Inductive Promise (A : Type) : Type :=
| Pending
| Resolved (a : A)
| Rejected (e : Thrown).
Arguments Pending {A}.
Arguments Resolved {A} a.
Arguments Rejected {A} e.

(** [resolve] and [reject] have an effect on a pending promise only. *)
Definition settle {A : Type} (p outcome : Promise A) : Promise A :=
  match p with
  | Pending => outcome
  | _ => p
  end.

(** The canvas: whether [getContext("2d")] yields a context. *)
Record Canvas : Type := mkCanvas {
  has2d : bool
}.

(** The video element, as far as the helpers read it. *)
Record Video : Type := mkVideo {
  video_duration : option number   (* video.duration *)
}.

(** ** utils.ts: extractFrames *)

Module ExtractFrames.

Record Options : Type := mkOptions {
  maxFrames : option number;
  quality : option number;
  frameInterval : option number
}.

Definition noOptions : Options := mkOptions None None None.

Definition HAVE_CURRENT_DATA : nat := 2.

(** What the browser presents when a seek completes: the ready state of the
    video, and the JPEG data URL the canvas gives for the picture drawn from
    it, as a function of the quality.  Sizing the canvas and drawing the
    video on it only determine that picture. *)
Record Seeked : Type := mkSeeked {
  readyState : nat;
  toDataURL : number -> string
}.

Record State : Type := mkState {
  frames : list FrameInfo;
  currentFrame : nat;
  currentTime : number;          (* video.currentTime, as last assigned *)
  seeking : bool;                (* a seek was started and has not completed *)
  listening : bool;              (* onSeeked is registered *)
  promise : Promise (list FrameInfo)
}.

Section Call.

Variables (startTime endTime : number) (options : Options).

Definition maxFrames_ : number := default (of_Z 100) (maxFrames options).
Definition quality_ : number :=
  default (Js64.double (92 # 100)) (quality options).
Definition frameInterval_ : number := default (of_Z 100) (frameInterval options).

Definition duration_ : number := (endTime - startTime)%f64.

Definition totalFrames : number :=
  Js.min (Js.floor (duration_ * of_Z 1000 / frameInterval_)%f64) maxFrames_.

(** State after the executor has run: the first seek is under way. *)
Definition start : State :=
  {| frames := [];
     currentFrame := 0;
     currentTime := startTime;
     seeking := true;
     listening := true;
     promise := Pending |}.

Definition onSeeked (st : State) (ev : Seeked) : State :=
  if (of_nat (currentFrame st) >=? totalFrames)%js then
    {| frames := frames st;
       currentFrame := currentFrame st;
       currentTime := currentTime st;
       seeking := false;
       listening := false;
       promise := settle (promise st) (Resolved (frames st)) |}
  else if (HAVE_CURRENT_DATA <=? readyState ev)%nat then
    let timestamp :=
      (startTime + of_nat (currentFrame st) * frameInterval_ / of_Z 1000)%f64 in
    let dataUrl := toDataURL ev quality_ in
    let frame :=
      {| dataUrl := dataUrl;
         timestamp := timestamp;
         frameNumber := (of_nat (currentFrame st) + of_Z 1)%js;
         metadata := None |} in
    let currentFrame' := S (currentFrame st) in
    {| frames := frames st ++ [frame];
       currentFrame := currentFrame';
       currentTime :=
         (startTime + of_nat currentFrame' * frameInterval_ / of_Z 1000)%f64;
       seeking := true;
       listening := true;
       promise := promise st |}
  else
    {| frames := frames st;
       currentFrame := currentFrame st;
       currentTime := currentTime st;
       seeking := false;
       listening := true;
       promise := promise st |}.

(** The browser fires one [seeked] event per seek; the listener runs while
    it is registered and a seek is under way.  This is the course of an
    extraction during which nothing else seeks the video. *)
Fixpoint run (st : State) (evs : list Seeked) : State :=
  match evs with
  | [] => st
  | ev :: evs' =>
      if listening st && seeking st then run (onSeeked st ev) evs' else st
  end.

(** [seeked] events of any origin, a seek of the loop or one of the user:
    the listener runs at each of them for as long as it is registered. *)
Fixpoint dispatch (st : State) (evs : list Seeked) : State :=
  match evs with
  | [] => st
  | ev :: evs' => if listening st then dispatch (onSeeked st ev) evs' else st
  end.

Definition extractFrames (canvas : Canvas) (evs : list Seeked)
  : Promise (list FrameInfo) :=
  if negb (has2d canvas) then Resolved []
  else promise (run start evs).

End Call.

End ExtractFrames.

(** ** utils.ts: extractActualFrames *)

(** What the browser hands to a video frame callback, with the JPEG data URL
    the canvas gives for the presented picture, as a function of the
    quality. *)
Record Presented : Type := mkPresented {
  now : number;
  frameMetadata : VideoFrameMetadata;
  frameToDataURL : number -> string
}.

Module ExtractActualFrames.

Record Options : Type := mkOptions {
  maxFrames : option number;
  quality : option number;
  onProgress : bool              (* whether a progress callback is given *)
}.

Definition noOptions : Options := mkOptions None None false.

Record State : Type := mkState {
  frames : list FrameInfo;
  frameCount : nat;
  requested : bool;              (* processFrame is registered for the next frame *)
  playing : bool;
  promise : Promise (list FrameInfo);
  reported : list number;        (* arguments of the calls of onProgress, in order *)
  console : list string          (* console.warn messages, in order *)
}.

Definition unsupported_warning : string :=
  "requestVideoFrameCallback not supported, falling back to time-based extraction".

Section Call.

Variables (startTime endTime : number) (options : Options).

Definition maxFrames_ : number := default (of_Z 100) (maxFrames options).
Definition quality_ : number :=
  default (Js64.double (92 # 100)) (quality options).

(** [onProgress?.(progress)] *)
Definition report (progress : number) (log : list number) : list number :=
  if onProgress options then log ++ [progress] else log.

Definition processFrame (st : State) (ev : Presented) : State :=
  let md := frameMetadata ev in
  if (mediaTime md <? startTime)%js then
    {| frames := frames st; frameCount := frameCount st;
       requested := true; playing := playing st;
       promise := promise st; reported := reported st;
       console := console st |}
  else if (mediaTime md >? endTime)%js || (of_nat (frameCount st) >=? maxFrames_)%js then
    {| frames := frames st; frameCount := frameCount st;
       requested := false; playing := false;
       promise := settle (promise st) (Resolved (frames st));
       reported := reported st; console := console st |}
  else
    let dataUrl := frameToDataURL ev quality_ in
    let frames' :=
      frames st ++
      [ {| dataUrl := dataUrl;
           timestamp := mediaTime md;
           frameNumber := presentedFrames md;
           metadata := Some md |} ] in
    let frameCount' := S (frameCount st) in
    let progress :=
      Js.min ((mediaTime md - startTime) / (endTime - startTime) * of_Z 100)%js
             (of_Z 100) in
    let reported' := report progress (reported st) in
    if (mediaTime md <=? endTime)%js && (of_nat frameCount' <? maxFrames_)%js then
      {| frames := frames'; frameCount := frameCount';
         requested := true; playing := playing st;
         promise := promise st; reported := reported';
         console := console st |}
    else
      {| frames := frames'; frameCount := frameCount';
         requested := false; playing := false;
         promise := settle (promise st) (Resolved frames');
         reported := reported'; console := console st |}.

(** The browser calls the registered callback once per presented frame. *)
Fixpoint run (st : State) (evs : list Presented) : State :=
  match evs with
  | [] => st
  | ev :: evs' => if requested st then run (processFrame st ev) evs' else st
  end.

Definition idle : State :=
  {| frames := []; frameCount := 0; requested := false; playing := false;
     promise := Pending; reported := []; console := [] |}.

(** The executor.  [supported] is
    ['requestVideoFrameCallback' in HTMLVideoElement.prototype]. *)
Definition execute (canvas : Canvas) (supported : bool) : State :=
  if negb (has2d canvas) then
    {| frames := []; frameCount := 0; requested := false; playing := false;
       promise := Resolved []; reported := []; console := [] |}
  else if supported then
    {| frames := []; frameCount := 0; requested := true; playing := true;
       promise := Pending; reported := []; console := [] |}
  else
    {| frames := []; frameCount := 0; requested := false; playing := false;
       promise := Resolved []; reported := [];
       console := [unsupported_warning] |}.

Definition extractActualFrames (canvas : Canvas) (supported : bool)
    (evs : list Presented) : State :=
  run (execute canvas supported) evs.

End Call.

End ExtractActualFrames.

(** ** utils.ts: analyzeVideoFrames *)

Module Analyze.

Record Analysis : Type := mkAnalysis {
  totalFrames : number;
  duration : number;
  fps : number
}.

Definition invalid_duration : string :=
  "No video loaded or video duration is invalid".

Record State : Type := mkState {
  frameCount : nat;
  startTime : option number;     (* null until assigned *)
  lastTime : option number;
  requested : bool;              (* countFrame is registered for the next frame *)
  playing : bool;
  currentTime : option number;   (* video.currentTime, where the helper assigns it *)
  promise : Promise Analysis;
  reported : list number         (* arguments of the calls of onProgress, in order *)
}.

Section Call.

Variables (video : Video) (onProgress : bool).

Definition report (progress : number) (log : list number) : list number :=
  if onProgress then log ++ [progress] else log.

(** [countFrame]; nothing in its body throws, so the catch clause is
    dead code here. *)
Definition countFrame (st : State) (ev : Presented) : State :=
  let md := frameMetadata ev in
  let startTime' :=
    if negb (truthy_opt (startTime st)) then Some (mediaTime md)
    else startTime st in
  let lastTime' := mediaTime md in
  let frameCount' := S (frameCount st) in
  let progress :=
    Js.min (mediaTime md / to_number (video_duration video) * of_Z 100)%js
           (of_Z 100) in
  let reported' := report progress (reported st) in
  if (mediaTime md <? to_number (video_duration video))%js then
    {| frameCount := frameCount'; startTime := startTime';
       lastTime := Some lastTime'; requested := true;
       playing := playing st; currentTime := currentTime st;
       promise := promise st; reported := reported' |}
  else
    let duration :=
      (lastTime' - (if truthy_opt startTime' then to_number startTime'
                    else of_Z 0))%js in
    let fps := (of_nat frameCount' / duration)%js in
    {| frameCount := frameCount'; startTime := startTime';
       lastTime := Some lastTime'; requested := false;
       playing := false; currentTime := Some (of_Z 0);
       promise :=
         settle (promise st)
           (Resolved {| totalFrames := of_nat frameCount';
                        duration := duration;
                        fps := fps |});
       reported := reported' |}.

Fixpoint run (st : State) (evs : list Presented) : State :=
  match evs with
  | [] => st
  | ev :: evs' => if requested st then run (countFrame st ev) evs' else st
  end.

Definition idle (p : Promise Analysis) : State :=
  {| frameCount := 0; startTime := None; lastTime := None;
     requested := false; playing := false; currentTime := None;
     promise := p; reported := [] |}.

(** The executor.  [supported] is
    ['requestVideoFrameCallback' in HTMLVideoElement.prototype];
    [playFailure] is the reason with which [video.play()] rejects, if it
    does: the rejection reaches the promise before any frame is
    presented. *)
Definition execute (supported : bool) (playFailure : option Thrown) : State :=
  if negb (truthy_opt (video_duration video)) then
    idle (Rejected (ErrorObject invalid_duration))
  else if supported then
    {| frameCount := 0; startTime := None; lastTime := None;
       requested := true; playing := true; currentTime := Some (of_Z 0);
       promise :=
         match playFailure with
         | Some e => Rejected e
         | None => Pending
         end;
       reported := [] |}
  else
    let duration := to_number (video_duration video) in
    let fps := of_Z 30 in
    idle (Resolved {| totalFrames := Js.round (duration * fps)%f64;
                      duration := duration;
                      fps := fps |}).

Definition analyzeVideoFrames (supported : bool)
    (playFailure : option Thrown) (evs : list Presented) : State :=
  run (execute supported playFailure) evs.

End Call.

End Analyze.

(** ** page.tsx: the state of the page and its handlers *)

Module Page.

Record PageState : Type := mkPage {
  extractedFrames : list FrameInfo;
  actualFrames : list FrameInfo;
  capturedFrames : list FrameInfo;
  startTime : TimeValue;
  endTime : TimeValue;
  frameInterval : number;
  quality : number;
  extractionProgress : number;
  isExtracting : bool;
  videoAnalysis : option Analyze.Analysis;
  isAnalyzing : bool;
  analysisProgress : number;
  analysisError : option string
}.

Definition zeroTime : TimeValue := mkTime (of_Z 0) (of_Z 0) (of_Z 0).

(** The initial values of the [useState] hooks. *)
Definition initial : PageState :=
  {| extractedFrames := []; actualFrames := []; capturedFrames := [];
     startTime := zeroTime; endTime := zeroTime;
     frameInterval := of_Z 100; quality := of_Z 92;
     extractionProgress := of_Z 0; isExtracting := false;
     videoAnalysis := None; isAnalyzing := false;
     analysisProgress := of_Z 0; analysisError := None |}.

Definition setExtractedFrames (v : list FrameInfo) (st : PageState) : PageState :=
  mkPage v (actualFrames st) (capturedFrames st) (startTime st) (endTime st)
    (frameInterval st) (quality st) (extractionProgress st) (isExtracting st)
    (videoAnalysis st) (isAnalyzing st) (analysisProgress st) (analysisError st).

Definition setActualFrames (v : list FrameInfo) (st : PageState) : PageState :=
  mkPage (extractedFrames st) v (capturedFrames st) (startTime st) (endTime st)
    (frameInterval st) (quality st) (extractionProgress st) (isExtracting st)
    (videoAnalysis st) (isAnalyzing st) (analysisProgress st) (analysisError st).

Definition setCapturedFrames (f : list FrameInfo -> list FrameInfo)
    (st : PageState) : PageState :=
  mkPage (extractedFrames st) (actualFrames st) (f (capturedFrames st))
    (startTime st) (endTime st)
    (frameInterval st) (quality st) (extractionProgress st) (isExtracting st)
    (videoAnalysis st) (isAnalyzing st) (analysisProgress st) (analysisError st).

Definition setExtractionProgress (v : number) (st : PageState) : PageState :=
  mkPage (extractedFrames st) (actualFrames st) (capturedFrames st)
    (startTime st) (endTime st)
    (frameInterval st) (quality st) v (isExtracting st)
    (videoAnalysis st) (isAnalyzing st) (analysisProgress st) (analysisError st).

Definition setIsExtracting (v : bool) (st : PageState) : PageState :=
  mkPage (extractedFrames st) (actualFrames st) (capturedFrames st)
    (startTime st) (endTime st)
    (frameInterval st) (quality st) (extractionProgress st) v
    (videoAnalysis st) (isAnalyzing st) (analysisProgress st) (analysisError st).

Definition setVideoAnalysis (v : option Analyze.Analysis) (st : PageState)
    : PageState :=
  mkPage (extractedFrames st) (actualFrames st) (capturedFrames st)
    (startTime st) (endTime st)
    (frameInterval st) (quality st) (extractionProgress st) (isExtracting st)
    v (isAnalyzing st) (analysisProgress st) (analysisError st).

Definition setIsAnalyzing (v : bool) (st : PageState) : PageState :=
  mkPage (extractedFrames st) (actualFrames st) (capturedFrames st)
    (startTime st) (endTime st)
    (frameInterval st) (quality st) (extractionProgress st) (isExtracting st)
    (videoAnalysis st) v (analysisProgress st) (analysisError st).

Definition setAnalysisProgress (v : number) (st : PageState) : PageState :=
  mkPage (extractedFrames st) (actualFrames st) (capturedFrames st)
    (startTime st) (endTime st)
    (frameInterval st) (quality st) (extractionProgress st) (isExtracting st)
    (videoAnalysis st) (isAnalyzing st) v (analysisError st).

Definition setAnalysisError (v : option string) (st : PageState) : PageState :=
  mkPage (extractedFrames st) (actualFrames st) (capturedFrames st)
    (startTime st) (endTime st)
    (frameInterval st) (quality st) (extractionProgress st) (isExtracting st)
    (videoAnalysis st) (isAnalyzing st) (analysisProgress st) v.

(** What [document.querySelector] finds, and what the browser does. *)
Record Browser : Type := mkBrowser {
  video : option Video;            (* document.querySelector("video") *)
  canvas : option Canvas;          (* document.querySelector("canvas") *)
  supportsFrameCallback : bool;
  seeks : list ExtractFrames.Seeked;
  presented : list Presented;
  playFailure : option Thrown
}.

(** The effects of a handler other than state updates. *)
Inductive Effect : Type :=
| Alert (message : string)
| ConsoleError (message : string) (reason : Thrown)
| CallExtractFrames (startTime endTime : number) (options : ExtractFrames.Options)
| CallExtractActualFrames (startTime endTime : number)
    (options : ExtractActualFrames.Options)
| CallAnalyzeVideoFrames.

Definition invalid_range : string := "End time must be greater than start time".

Definition handleExtractFrames (b : Browser) (st : PageState)
    : PageState * list Effect :=
  match video b, canvas b with
  | Some _, Some canvas =>
      let startTimeInSeconds := timeToSeconds (startTime st) in
      let endTimeInSeconds := timeToSeconds (endTime st) in
      if (endTimeInSeconds <=? startTimeInSeconds)%js then
        (st, [Alert invalid_range])
      else
        let options :=
          {| ExtractFrames.frameInterval := Some (frameInterval st);
             ExtractFrames.quality := Some (quality st / of_Z 100)%js;
             ExtractFrames.maxFrames := Some (of_Z 100) |} in
        let call :=
          CallExtractFrames startTimeInSeconds endTimeInSeconds options in
        match ExtractFrames.extractFrames startTimeInSeconds endTimeInSeconds
                options canvas (seeks b) with
        | Resolved frames => (setExtractedFrames frames st, [call])
        | _ => (st, [call])          (* the await does not resume *)
        end
  | _, _ => (st, [])
  end.

Definition handleExtractActualFrames (b : Browser) (st : PageState)
    : PageState * list Effect :=
  match video b, canvas b with
  | Some _, Some canvas =>
      let startTimeInSeconds := timeToSeconds (startTime st) in
      let endTimeInSeconds := timeToSeconds (endTime st) in
      if (endTimeInSeconds <=? startTimeInSeconds)%js then
        (st, [Alert invalid_range])
      else
        let st := setExtractionProgress (of_Z 0) (setIsExtracting true st) in
        let options :=
          {| ExtractActualFrames.quality := Some (quality st / of_Z 100)%js;
             ExtractActualFrames.maxFrames := Some (of_Z 100);
             ExtractActualFrames.onProgress := true |} in
        let call :=
          CallExtractActualFrames startTimeInSeconds endTimeInSeconds options in
        let r :=
          ExtractActualFrames.extractActualFrames startTimeInSeconds
            endTimeInSeconds options canvas (supportsFrameCallback b)
            (presented b) in
        let st :=
          fold_left (fun s p => setExtractionProgress p s)
            (ExtractActualFrames.reported r) st in
        match ExtractActualFrames.promise r with
        | Resolved frames =>
            (setIsExtracting false (setActualFrames frames st), [call])
        | _ => (st, [call])          (* the await does not resume *)
        end
  | _, _ => (st, [])
  end.

Definition handleFrameCapture (frameInfo : FrameInfo) (st : PageState)
    : PageState :=
  setCapturedFrames (fun prev => prev ++ [frameInfo]) st.

Definition no_video : string := "No video element found".
Definition unknown_error : string := "Unknown error occurred".
Definition analysis_failed : string := "Error analyzing video:".

Definition handleAnalyzeVideo (b : Browser) (st : PageState)
    : PageState * list Effect :=
  match video b with
  | None => (setAnalysisError (Some no_video) st, [])
  | Some video =>
      let st :=
        setVideoAnalysis None
          (setAnalysisError None
             (setAnalysisProgress (of_Z 0) (setIsAnalyzing true st))) in
      let r0 :=
        Analyze.execute video (supportsFrameCallback b) (playFailure b) in
      let r := Analyze.run video true r0 (presented b) in
      let progress s :=
        fold_left (fun s p => setAnalysisProgress p s) (Analyze.reported r) s in
      let finally s := setAnalysisProgress (of_Z 0) (setIsAnalyzing false s) in
      (* what follows the await, by the outcome of the promise *)
      let resume outcome s :=
        match outcome with
        | Resolved analysis =>
            (finally (setVideoAnalysis (Some analysis) s),
             [CallAnalyzeVideoFrames])
        | Rejected error =>
            let message :=
              match error with
              | ErrorObject message => message
              | OtherValue => unknown_error
              end in
            (finally (setAnalysisError (Some message) s),
             [CallAnalyzeVideoFrames; ConsoleError analysis_failed error])
        | Pending => (s, [CallAnalyzeVideoFrames])   (* the await does not resume *)
        end in
      match Analyze.promise r0 with
      | Pending =>
          (* settled, if at all, by countFrame at the last frame counted:
             every progress report precedes what follows the await *)
          resume (Analyze.promise r) (progress st)
      | settled =>
          (* settled before a frame is presented: what follows the await runs
             first, and the frames counted afterwards report their progress
             to the page *)
          let (st, effects) := resume settled st in
          (progress st, effects)
      end
  end.

End Page.

(** ** Invariants of the callback loops *)

Module Invariants.

Section ExtractFrames.

Import ExtractFrames.
Variables (startTime endTime : number) (options : Options).

(** An array position [i] (counted from 0) holds the frame captured when
    [currentFrame] was [i], and the loop had not reached [totalFrames]
    then. *)
Definition captured_at (i : nat) (f : FrameInfo) : Prop :=
  frameNumber f = (of_nat i + of_Z 1)%js /\
  timestamp f =
    (startTime + of_nat i * frameInterval_ options / of_Z 1000)%f64 /\
  (of_nat i >=? totalFrames startTime endTime options)%js = false.

Definition seek_inv (st : State) : Prop :=
  length (frames st) = currentFrame st /\
  (forall i f, nth_error (frames st) i = Some f -> captured_at i f) /\
  (forall fr, promise st = Resolved fr ->
     fr = frames st /\
     (of_nat (currentFrame st) >=? totalFrames startTime endTime options)%js
     = true).

End ExtractFrames.

Section ExtractActualFrames.

Import ExtractActualFrames.
Variables (startTime endTime : number) (options : Options).

(** The timestamp lies in the closed interval [startTime, endTime]. *)
Definition in_range (f : FrameInfo) : Prop :=
  (startTime <=? timestamp f)%js = true /\
  (timestamp f <=? endTime)%js = true.

Definition frame_inv (mf : nat) (st : State) : Prop :=
  length (frames st) = frameCount st /\
  (frameCount st <= mf)%nat /\
  Forall in_range (frames st) /\
  (requested st = true -> promise st = Pending) /\
  (forall fr, promise st = Resolved fr -> fr = frames st).

(** The progress value computed for a frame. *)
Definition progress_of (ev : Presented) : number :=
  Js.min
    ((mediaTime (frameMetadata ev) - startTime) / (endTime - startTime)
     * of_Z 100)%js
    (of_Z 100).

End ExtractActualFrames.

(** A progress value in the interval [0, 100]. *)
Definition percentage (p : number) : Prop :=
  (of_Z 0 <=? p)%js = true /\ (p <=? of_Z 100)%js = true.

(** A progress value that is at most 100, or is not a number at all. *)
Definition clamped (p : number) : Prop :=
  is_nan p = true \/ (p <=? of_Z 100)%js = true.

End Invariants.

(** ** The arrays the loops build, described as list functions *)

Module Described.

(** The number of captures after which a loop that stops at the first
    frame count at or above [t] ends: the least natural number that is not
    below [t]. *)
Definition frames_wanted (t : number) : nat :=
  match t with
  | Fin q => Z.to_nat (Qceiling q)
  | _ => 0
  end.

(** The elements of [l] marked [true] in [keep], in their order. *)
Fixpoint select {A : Type} (keep : list bool) (l : list A) : list A :=
  match keep, l with
  | b :: keep', a :: l' => if b then a :: select keep' l' else select keep' l'
  | _, _ => []
  end.

Section ExtractFrames.

Import ExtractFrames.
Variables (startTime : number) (options : Options).

(** The record pushed for the seek that completes when [currentFrame] is
    [k]. *)
Definition frame_of_seek (k : nat) (ev : Seeked) : FrameInfo :=
  {| dataUrl := toDataURL ev (quality_ options);
     timestamp :=
       (startTime + of_nat k * frameInterval_ options / of_Z 1000)%f64;
     frameNumber := (of_nat k + of_Z 1)%js;
     metadata := None |}.

Fixpoint frames_of_seeks (k : nat) (evs : list Seeked) : list FrameInfo :=
  match evs with
  | [] => []
  | ev :: evs' => frame_of_seek k ev :: frames_of_seeks (S k) evs'
  end.

End ExtractFrames.

Section ExtractActualFrames.

Import ExtractActualFrames.
Variables (startTime endTime : number) (options : Options).

(** The record pushed for a presented frame. *)
Definition frame_of_presented (ev : Presented) : FrameInfo :=
  {| dataUrl := frameToDataURL ev (quality_ options);
     timestamp := mediaTime (frameMetadata ev);
     frameNumber := presentedFrames (frameMetadata ev);
     metadata := Some (frameMetadata ev) |}.

Definition before_start (ev : Presented) : bool :=
  (mediaTime (frameMetadata ev) <? startTime)%js.

Definition past_end (ev : Presented) : bool :=
  (mediaTime (frameMetadata ev) >? endTime)%js.

(** The longest prefix whose elements satisfy [p]. *)
Fixpoint take_while {A : Type} (p : A -> bool) (l : list A) : list A :=
  match l with
  | [] => []
  | a :: l' => if p a then a :: take_while p l' else []
  end.

(** The presented frames that are captured: those not before startTime, up
    to the first one past endTime, and no more than [mf] of them. *)
Definition captured (mf : nat) (evs : list Presented) : list Presented :=
  firstn mf
    (take_while (fun ev => negb (past_end ev))
       (filter (fun ev => negb (before_start ev)) evs)).

(** The states of the frame callback path: playing with the callback
    registered and the promise pending, or paused with no callback and the
    promise resolved with the array. *)
Definition running (st : State) : Prop :=
  requested st = true /\ playing st = true /\ promise st = Pending.

Definition finished (st : State) : Prop :=
  requested st = false /\ playing st = false /\
  promise st = Resolved (frames st).

End ExtractActualFrames.

End Described.

(** ** More of JavaScript: Math.max and [||] *)

Module JsMore.

Definition max (x y : number) : number :=
  match cmp x y with
  | None => NaN
  | Some Lt => y
  | Some _ => x
  end.

(** [x || d] on numbers. *)
Definition or_else (x d : number) : number := if truthy x then x else d.

End JsMore.

(** ** time-input.tsx: TimeInput *)

Module TimeInput.

Inductive Field : Type := Hours | Minutes | Seconds.

(** [{ ...value, [field]: v }] *)
Definition with_field (value : TimeValue) (field : Field) (v : number)
    : TimeValue :=
  match field with
  | Hours => mkTime v (minutes value) (seconds value)
  | Minutes => mkTime (hours value) v (seconds value)
  | Seconds => mkTime (hours value) (minutes value) v
  end.

Definition field_of (value : TimeValue) (field : Field) : number :=
  match field with
  | Hours => hours value
  | Minutes => minutes value
  | Seconds => seconds value
  end.

(** [handleChange(field)(e)]: the value handed to onChange.  [parsed] is
    [parseInt(e.target.value)]. *)
Definition handleChange (value : TimeValue) (field : Field) (parsed : number)
    : TimeValue :=
  let newValue := JsMore.or_else parsed (of_Z 0) in
  let maxValue :=
    match field with
    | Hours => PInf
    | _ => of_Z 59
    end in
  with_field value field (Js.min (JsMore.max (of_Z 0) newValue) maxValue).

(** A time whose fields are numbers from 0, minutes and seconds up to 59. *)
Definition in_bounds (value : TimeValue) : Prop :=
  (of_Z 0 <=? hours value)%js = true /\
  (of_Z 0 <=? minutes value)%js = true /\
  (minutes value <=? of_Z 59)%js = true /\
  (of_Z 0 <=? seconds value)%js = true /\
  (seconds value <=? of_Z 59)%js = true.

End TimeInput.

(** The two time inputs of the page: [onChange] is [setStartTime] or
    [setEndTime]. *)
Module PageInputs.

Inductive Input : Type := StartTime | EndTime.

Record Change : Type := mkChange {
  input : Input;
  field : TimeInput.Field;
  parsed : number                (* parseInt(e.target.value) *)
}.

Definition setStartTime (v : TimeValue) (st : Page.PageState) : Page.PageState :=
  Page.mkPage (Page.extractedFrames st) (Page.actualFrames st)
    (Page.capturedFrames st) v (Page.endTime st)
    (Page.frameInterval st) (Page.quality st) (Page.extractionProgress st)
    (Page.isExtracting st) (Page.videoAnalysis st) (Page.isAnalyzing st)
    (Page.analysisProgress st) (Page.analysisError st).

Definition setEndTime (v : TimeValue) (st : Page.PageState) : Page.PageState :=
  Page.mkPage (Page.extractedFrames st) (Page.actualFrames st)
    (Page.capturedFrames st) (Page.startTime st) v
    (Page.frameInterval st) (Page.quality st) (Page.extractionProgress st)
    (Page.isExtracting st) (Page.videoAnalysis st) (Page.isAnalyzing st)
    (Page.analysisProgress st) (Page.analysisError st).

Definition change (c : Change) (st : Page.PageState) : Page.PageState :=
  match input c with
  | StartTime =>
      setStartTime
        (TimeInput.handleChange (Page.startTime st) (field c) (parsed c)) st
  | EndTime =>
      setEndTime
        (TimeInput.handleChange (Page.endTime st) (field c) (parsed c)) st
  end.

Definition changes (cs : list Change) (st : Page.PageState) : Page.PageState :=
  fold_left (fun s c => change c s) cs st.

End PageInputs.

(** ** video-player.tsx: VideoPlayer *)

Module VideoPlayer.

Definition HAVE_ENOUGH_DATA : nat := 4.

(** The video element as captureFrame reads it; [jpeg] is what
    [canvas.toDataURL("image/jpeg")] gives for its current picture. *)
Record VideoElement : Type := mkVideoElement {
  readyState : nat;
  currentTime : number;
  videoWidth : number;
  videoHeight : number;
  jpeg : string
}.

Record Refs : Type := mkRefs {
  videoRef : option VideoElement;    (* videoRef.current *)
  canvasRef : option Canvas          (* canvasRef.current *)
}.

(** captureFrame: the record handed to onFrameCapture, when it is called. *)
Definition captureFrame (refs : Refs) : option FrameInfo :=
  match videoRef refs, canvasRef refs with
  | Some video, Some canvas =>
      if negb (has2d canvas) then None
      else if (readyState video =? HAVE_ENOUGH_DATA)%nat then
        Some {| dataUrl := jpeg video;
                timestamp := currentTime video;
                frameNumber :=
                  Js.floor (currentTime video * videoHeight video)%f64;
                metadata := None |}
      else None
  | _, _ => None
  end.

(** "Capture Current Frame" on the page: onFrameCapture is
    handleFrameCapture. *)
Definition captureOnPage (refs : Refs) (st : Page.PageState) : Page.PageState :=
  match captureFrame refs with
  | Some frameInfo => Page.handleFrameCapture frameInfo st
  | None => st
  end.

Record File : Type := mkFile {
  name : string
}.

Record State : Type := mkState {
  videoUrl : string;
  fileName : string;
  objectUrls : list string       (* object URLs created and not revoked *)
}.

Definition initial : State := mkState "" "" [].

Definition revokeObjectURL (url : string) (urls : list string) : list string :=
  filter (fun u => negb (String.eqb u url)) urls.

(** handleFileChange.  [file] is [event.target.files?.[0]] and [url] the
    URL that [URL.createObjectURL(file)] returns. *)
Definition handleFileChange (file : option File) (url : string) (st : State)
    : State :=
  match file with
  | Some file =>
      let urls :=
        if negb (String.eqb (videoUrl st) "")
        then revokeObjectURL (videoUrl st) (objectUrls st)
        else objectUrls st in
      {| videoUrl := url; fileName := name file; objectUrls := urls ++ [url] |}
  | None => st
  end.

Definition handleFileChanges (events : list (option File * string))
    (st : State) : State :=
  fold_left (fun s ev => handleFileChange (fst ev) (snd ev) s) events st.

End VideoPlayer.

(** * Properties *)

(** ** Numbers *)

Lemma leb_Fin (a b : Q) : (Fin a <=? Fin b)%js = true <-> (a <= b)%Q.
Proof.
  unfold leb, cmp. rewrite Qle_alt.
  destruct (a ?= b)%Q; split; intros; congruence.
Qed.

Lemma ltb_Fin (a b : Q) : (Fin a <? Fin b)%js = true <-> (a < b)%Q.
Proof.
  unfold ltb, cmp. rewrite Qlt_alt.
  destruct (a ?= b)%Q; split; intros; congruence.
Qed.

Lemma cmp_antisym (x y : number) :
  cmp y x = option_map CompOpp (cmp x y).
Proof.
  destruct x, y; simpl; try reflexivity.
  now rewrite <- Qcompare_antisym.
Qed.

(** Away from NaN the order is total. *)
Lemma ltb_false_leb (x y : number) :
  is_nan x = false -> is_nan y = false -> (x <? y)%js = false -> (y <=? x)%js = true.
Proof.
  unfold ltb, leb. rewrite (cmp_antisym x y).
  destruct x, y; simpl; try discriminate; try reflexivity.
  destruct (q ?= q0)%Q; simpl; congruence.
Qed.

Lemma leb_false_ltb (x y : number) :
  is_nan x = false -> is_nan y = false -> (x <=? y)%js = false -> (y <? x)%js = true.
Proof.
  unfold ltb, leb. rewrite (cmp_antisym x y).
  destruct x, y; simpl; try discriminate; try reflexivity.
  destruct (q ?= q0)%Q; simpl; congruence.
Qed.

Lemma geb_of_Z (x y : Z) : (of_Z x >=? of_Z y)%js = true <-> (y <= x)%Z.
Proof.
  unfold geb, of_Z. rewrite leb_Fin. now rewrite <- Zle_Qle.
Qed.

Lemma geb_of_Z_false (x y : Z) : (of_Z x >=? of_Z y)%js = false <-> (x < y)%Z.
Proof.
  rewrite <- Bool.not_true_iff_false, geb_of_Z. lia.
Qed.

Lemma min_leb_r (x y : number) :
  is_nan (Js.min x y) = false -> (Js.min x y <=? y)%js = true.
Proof.
  unfold Js.min, leb.
  destruct (cmp x y) as [[]|] eqn:E; simpl; try discriminate; intros _.
  - now rewrite E.
  - now rewrite E.
  - destruct y; simpl in *; try reflexivity; try (destruct x; discriminate).
    now rewrite (proj1 (Qeq_alt q q) (Qeq_refl q)).
Qed.

(** ** Rounding to a double *)

(** Rounding at work: the double nearest to 0.1; 0.1 + 0.2, which is
    0.30000000000000004 and not the double nearest to 0.3; a tie, 2^53 + 1,
    which goes to the even significand; the least subnormal number, half of
    it, which is a tie and goes to zero; the overflow below 2^1024; and the
    products 0.3 * 1000, 0.35 * 30 and 0.7 * 1080, which round to 300, 10.5
    and 756. *)
Example round_examples :
  Js64.double (1 # 10) = Fin (3602879701896397 # 36028797018963968) /\
  (Js64.double (1 # 10) + Js64.double (2 # 10))%f64
  = Fin (1351079888211149 # 4503599627370496) /\
  Js64.double (3 # 10) = Fin (5404319552844595 # 18014398509481984) /\
  Js64.round (inject_Z (2 ^ 53 + 1)) = of_Z (2 ^ 53) /\
  Js64.round (Js64.pow2 (-1074)) = Fin (Js64.pow2 (-1074)) /\
  Js64.round (Js64.pow2 (-1075)) = Fin 0 /\
  Js64.round (Js64.pow2 1024 - Js64.pow2 970) = PInf /\
  (Js64.double (3 # 10) * of_Z 1000)%f64 = of_Z 300 /\
  (Js64.double (35 # 100) * of_Z 30)%f64 = Fin (21 # 2) /\
  (Js64.double (7 # 10) * of_Z 1080)%f64 = of_Z 756.
Proof. vm_compute. repeat split. Qed.

Lemma pow2_pos (e : Z) : (0 < Js64.pow2 e)%Q.
Proof. apply Qpower_0_lt. reflexivity. Qed.

(** The integer nearest to [x] is within 1/2 of it. *)
Lemma round_half_even_error (x : Q) :
  (inject_Z (Js64.round_half_even x) - (1 # 2) <= x)%Q /\
  (x <= inject_Z (Js64.round_half_even x) + (1 # 2))%Q.
Proof.
  pose proof (Qfloor_le x) as Hlo. pose proof (Qlt_floor x) as Hhi.
  unfold Js64.round_half_even.
  rewrite inject_Z_plus in Hhi. change (inject_Z 1) with 1%Q in Hhi.
  set (z := inject_Z (Qfloor x)) in *.
  destruct (x - z ?= 1 # 2)%Q eqn:E;
    first [apply (proj2 (Qeq_alt _ _)) in E
          |apply (proj2 (Qlt_alt _ _)) in E
          |apply (proj2 (Qgt_alt _ _)) in E];
    try destruct (Z.even (Qfloor x));
    rewrite ?inject_Z_plus; change (inject_Z 1) with 1%Q;
    fold z; clearbody z; split; lra.
Qed.

(** Rounding a positive number moves it by no more than half a unit in
    its last place. *)
Lemma nearest_error (x : Q) :
  (Js64.nearest x - Js64.pow2 (Js64.last_place x) * (1 # 2) <= x)%Q /\
  (x <= Js64.nearest x + Js64.pow2 (Js64.last_place x) * (1 # 2))%Q.
Proof.
  unfold Js64.nearest.
  pose proof (pow2_pos (Js64.last_place x)) as Hp.
  set (p := Js64.pow2 (Js64.last_place x)) in *.
  destruct (round_half_even_error (x / p)) as [Hlo Hhi].
  set (m := inject_Z (Js64.round_half_even (x / p))) in *. clearbody m.
  assert (Hx : (x == x / p * p)%Q).
  { field. intros E. rewrite E in Hp. discriminate. }
  set (q := (x / p)%Q) in *. clearbody q p.
  rewrite Hx. split; nra.
Qed.

Lemma pow2_le (a b : Z) : a <= b -> (Js64.pow2 a <= Js64.pow2 b)%Q.
Proof. intros H. apply Qpower_le_compat_l; [exact H | discriminate]. Qed.

Lemma pow2_lt_inv (a b : Z) : (Js64.pow2 a < Js64.pow2 b)%Q -> a < b.
Proof. intros H. apply (Qpower_lt_compat_l_inv 2); [exact H | reflexivity]. Qed.

Lemma pow2_sub (a b : Z) :
  (Js64.pow2 (a - b) == Js64.pow2 a / Js64.pow2 b)%Q.
Proof. apply Qpower_minus. discriminate. Qed.

Lemma pow2_Z (n : Z) : 0 <= n -> (Js64.pow2 n == inject_Z (2 ^ n))%Q.
Proof. intros H. symmetry. apply (Zpower_Qpower 2 n H). Qed.

(** Fractions of integers, compared by cross multiplication. *)
Lemma Qlt_fraction (n : Z) (d : positive) (a b : Z) :
  0 < b -> n * b < a * Zpos d ->
  (n # d < inject_Z a / inject_Z b)%Q.
Proof.
  intros Hb H. apply Qlt_shift_div_l.
  - unfold Qlt; simpl. lia.
  - unfold Qlt; simpl. lia.
Qed.

Lemma Qle_fraction (n : Z) (d : positive) (a b : Z) :
  0 < b -> a * Zpos d <= n * b ->
  (inject_Z a / inject_Z b <= n # d)%Q.
Proof.
  intros Hb H. apply Qle_shift_div_r.
  - unfold Qlt; simpl. lia.
  - unfold Qle; simpl. lia.
Qed.

(** [ilog2] is the binary exponent. *)
Lemma ilog2_spec (x : Q) :
  (0 < x)%Q ->
  (Js64.pow2 (Js64.ilog2 x) <= x)%Q /\ (x < Js64.pow2 (Js64.ilog2 x + 1))%Q.
Proof.
  destruct x as [n d]. intros Hx.
  assert (Hn : 0 < n) by (unfold Qlt in Hx; simpl in Hx; lia).
  unfold Js64.ilog2. simpl Qnum. simpl Qden.
  pose proof (Z.log2_spec n Hn) as [Hn1 Hn2].
  pose proof (Z.log2_spec (Zpos d) (Pos2Z.is_pos d)) as [Hd1 Hd2].
  pose proof (Z.log2_nonneg n) as Ha.
  pose proof (Z.log2_nonneg (Zpos d)) as Hb.
  set (a := Z.log2 n) in *. set (b := Z.log2 (Zpos d)) in *.
  assert (Hpa : 0 < 2 ^ a) by (apply Z.pow_pos_nonneg; lia).
  assert (Hpb : 0 < 2 ^ b) by (apply Z.pow_pos_nonneg; lia).
  assert (Hpa1 : 0 < 2 ^ Z.succ a) by (apply Z.pow_pos_nonneg; lia).
  assert (Hpb1 : 0 < 2 ^ Z.succ b) by (apply Z.pow_pos_nonneg; lia).
  destruct (Qle_bool (Js64.pow2 (a - b)) (n # d)) eqn:E.
  - split; [now apply Qle_bool_iff|].
    replace (a - b + 1) with (Z.succ a - b) by lia.
    rewrite pow2_sub, !pow2_Z by lia.
    apply Qlt_fraction; [exact Hpb|]. nia.
  - split.
    + replace (a - b - 1) with (a - Z.succ b) by lia.
      rewrite pow2_sub, !pow2_Z by lia.
      apply Qle_fraction; [exact Hpb1|]. nia.
    + replace (a - b - 1 + 1) with (a - b) by lia.
      apply Qnot_le_lt. intros H. apply Qle_bool_iff in H. congruence.
Qed.

Lemma ilog2_mono (x y : Q) :
  (0 < x)%Q -> (x <= y)%Q -> Js64.ilog2 x <= Js64.ilog2 y.
Proof.
  intros Hx Hxy.
  assert (Hy : (0 < y)%Q) by (eapply Qlt_le_trans; eassumption).
  destruct (ilog2_spec x Hx) as [Hx1 _].
  destruct (ilog2_spec y Hy) as [_ Hy2].
  assert (H : (Js64.pow2 (Js64.ilog2 x) < Js64.pow2 (Js64.ilog2 y + 1))%Q).
  { eapply Qle_lt_trans; [exact Hx1|].
    eapply Qle_lt_trans; [exact Hxy | exact Hy2]. }
  apply pow2_lt_inv in H. lia.
Qed.

(** Rounding to the nearest integer. *)
Lemma round_half_even_range (x : Q) :
  Qfloor x <= Js64.round_half_even x <= Qfloor x + 1.
Proof.
  unfold Js64.round_half_even.
  destruct (_ ?= _)%Q; [destruct (Z.even _)| |]; lia.
Qed.

Lemma round_half_even_ge (x : Q) (n : Z) :
  (inject_Z n <= x)%Q -> n <= Js64.round_half_even x.
Proof.
  intros H. apply Qfloor_resp_le in H. rewrite Qfloor_Z in H.
  pose proof (round_half_even_range x). lia.
Qed.

Lemma round_half_even_le (x : Q) (n : Z) :
  (x <= inject_Z n)%Q -> Js64.round_half_even x <= n.
Proof.
  intros H. pose proof (Qfloor_resp_le _ _ H) as Hf. rewrite Qfloor_Z in Hf.
  pose proof (round_half_even_range x) as Hr.
  destruct (Z.eq_dec (Qfloor x) n) as [E|E]; [|lia].
  unfold Js64.round_half_even.
  assert (Hlt : (x - inject_Z (Qfloor x) ?= 1 # 2)%Q = Lt).
  { apply (proj1 (Qlt_alt _ _)). rewrite E.
    set (z := inject_Z n) in *. clearbody z. lra. }
  rewrite Hlt. lia.
Qed.

Lemma round_half_even_mono (x y : Q) :
  (x <= y)%Q -> Js64.round_half_even x <= Js64.round_half_even y.
Proof.
  intros H. pose proof (Qfloor_resp_le _ _ H) as Hf.
  pose proof (round_half_even_range x) as Hx.
  pose proof (round_half_even_range y) as Hy.
  destruct (Z.eq_dec (Qfloor x) (Qfloor y)) as [E|E]; [|lia].
  unfold Js64.round_half_even. rewrite <- E.
  set (z := inject_Z (Qfloor x)) in *.
  destruct (x - z ?= 1 # 2)%Q eqn:Ex;
    destruct (y - z ?= 1 # 2)%Q eqn:Ey;
    try (destruct (Z.even (Qfloor x))); try lia; exfalso; clearbody z;
    first [apply (proj2 (Qeq_alt _ _)) in Ex
          |apply (proj2 (Qlt_alt _ _)) in Ex
          |apply (proj2 (Qgt_alt _ _)) in Ex];
    first [apply (proj2 (Qeq_alt _ _)) in Ey
          |apply (proj2 (Qlt_alt _ _)) in Ey
          |apply (proj2 (Qgt_alt _ _)) in Ey];
    lra.
Qed.

Lemma Qdiv_le_compat_r (a b c : Q) :
  (0 < c)%Q -> (a <= b)%Q -> (a / c <= b / c)%Q.
Proof.
  intros Hc H. unfold Qdiv. apply Qmult_le_compat_r; [exact H|].
  apply Qlt_le_weak. now apply Qinv_lt_0_compat.
Qed.

Lemma last_place_mono (x y : Q) :
  (0 < x)%Q -> (x <= y)%Q -> Js64.last_place x <= Js64.last_place y.
Proof.
  intros Hx Hxy. pose proof (ilog2_mono x y Hx Hxy).
  unfold Js64.last_place. lia.
Qed.

Lemma nearest_nonneg (x : Q) : (0 < x)%Q -> (0 <= Js64.nearest x)%Q.
Proof.
  intros Hx. unfold Js64.nearest.
  apply Qmult_le_0_compat; [|apply Qlt_le_weak, pow2_pos].
  change 0%Q with (inject_Z 0). rewrite <- Zle_Qle.
  apply round_half_even_ge. change (inject_Z 0) with 0%Q.
  apply Qle_shift_div_l; [apply pow2_pos|]. rewrite Qmult_0_l.
  now apply Qlt_le_weak.
Qed.

(** A number whose last place is above the subnormal range rounds to at
    least the power of two below it. *)
Lemma nearest_ge_pow2 (y : Q) :
  (0 < y)%Q -> -1074 < Js64.ilog2 y - 52 ->
  (Js64.pow2 (Js64.ilog2 y) <= Js64.nearest y)%Q.
Proof.
  intros Hy He. destruct (ilog2_spec y Hy) as [Hy1 _].
  unfold Js64.nearest, Js64.last_place.
  rewrite Z.max_l by lia.
  set (k := Js64.ilog2 y) in *.
  assert (Hm : 2 ^ 52 <= Js64.round_half_even (y / Js64.pow2 (k - 52))).
  { apply round_half_even_ge. rewrite <- pow2_Z by lia.
    replace 52 with (k - (k - 52)) at 1 by lia. rewrite pow2_sub.
    apply Qdiv_le_compat_r; [apply pow2_pos | exact Hy1]. }
  apply (Qle_trans _ (inject_Z (2 ^ 52) * Js64.pow2 (k - 52))).
  - rewrite <- pow2_Z by lia.
    unfold Js64.pow2. rewrite <- Qpower_plus by discriminate.
    replace (52 + (k - 52)) with k by lia. apply Qle_refl.
  - apply Qmult_le_compat_r; [|apply Qlt_le_weak, pow2_pos].
    now rewrite <- Zle_Qle.
Qed.

(** A number at most a power of two that is not below its last place
    rounds to at most that power. *)
Lemma nearest_le_pow2 (x : Q) (k : Z) :
  (0 < x)%Q -> (x <= Js64.pow2 k)%Q -> Js64.last_place x <= k ->
  (Js64.nearest x <= Js64.pow2 k)%Q.
Proof.
  intros Hx Hk He. unfold Js64.nearest.
  set (e := Js64.last_place x) in *.
  assert (Hm : Js64.round_half_even (x / Js64.pow2 e) <= 2 ^ (k - e)).
  { apply round_half_even_le. rewrite <- pow2_Z by lia. rewrite pow2_sub.
    apply Qdiv_le_compat_r; [apply pow2_pos | exact Hk]. }
  apply (Qle_trans _ (inject_Z (2 ^ (k - e)) * Js64.pow2 e)).
  - apply Qmult_le_compat_r; [|apply Qlt_le_weak, pow2_pos].
    now rewrite <- Zle_Qle.
  - rewrite <- pow2_Z by lia.
    unfold Js64.pow2. rewrite <- Qpower_plus by discriminate.
    replace (k - e + e) with k by lia. apply Qle_refl.
Qed.

Lemma nearest_mono (x y : Q) :
  (0 < x)%Q -> (x <= y)%Q -> (Js64.nearest x <= Js64.nearest y)%Q.
Proof.
  intros Hx Hxy.
  assert (Hy : (0 < y)%Q) by (eapply Qlt_le_trans; eassumption).
  pose proof (last_place_mono x y Hx Hxy) as He.
  destruct (Z.eq_dec (Js64.last_place x) (Js64.last_place y)) as [E|E].
  - unfold Js64.nearest. rewrite E.
    apply Qmult_le_compat_r; [|apply Qlt_le_weak, pow2_pos].
    rewrite <- Zle_Qle. apply round_half_even_mono.
    apply Qdiv_le_compat_r; [apply pow2_pos | exact Hxy].
  - assert (Hlt : Js64.last_place x < Js64.last_place y) by lia.
    unfold Js64.last_place in Hlt.
    destruct (ilog2_spec x Hx) as [_ Hx2].
    apply (Qle_trans _ (Js64.pow2 (Js64.ilog2 y))).
    + apply nearest_le_pow2; [exact Hx| |unfold Js64.last_place; lia].
      apply Qlt_le_weak. eapply Qlt_le_trans; [exact Hx2|].
      apply pow2_le. lia.
    + apply nearest_ge_pow2; [exact Hy | lia].
Qed.

Lemma round_pos_mono (x y : Q) :
  (0 < x)%Q -> (x <= y)%Q ->
  match Js64.round_pos x, Js64.round_pos y with
  | Some v, Some w => (v <= w)%Q
  | None, Some _ => False
  | _, None => True
  end.
Proof.
  intros Hx Hxy. pose proof (nearest_mono x y Hx Hxy) as H.
  unfold Js64.round_pos.
  destruct (Qle_bool (Js64.pow2 1024) (Js64.nearest x)) eqn:Ex;
    destruct (Qle_bool (Js64.pow2 1024) (Js64.nearest y)) eqn:Ey;
    cbv beta iota zeta; rewrite ?Ex, ?Ey; auto.
  - apply Qle_bool_iff in Ex.
    assert (Hy : Qle_bool (Js64.pow2 1024) (Js64.nearest y) = true)
      by (apply Qle_bool_iff; eapply Qle_trans; eassumption).
    congruence.
  - apply (Qle_trans _ (Js64.nearest x));
      [apply Qle_lteq; right; exact (Qred_correct _)|].
    apply (Qle_trans _ (Js64.nearest y)); [exact H|].
    apply Qle_lteq; right. apply Qeq_sym. exact (Qred_correct _).
Qed.

Lemma round_pos_nonneg (x v : Q) :
  (0 < x)%Q -> Js64.round_pos x = Some v -> (0 <= v)%Q.
Proof.
  intros Hx Hr. unfold Js64.round_pos in Hr. cbv zeta in Hr.
  destruct (Qle_bool _ _); [discriminate|].
  assert (E : v = Qred (Js64.nearest x)) by congruence.
  rewrite E.
  apply (Qle_trans _ (Js64.nearest x)); [now apply nearest_nonneg|].
  apply Qle_lteq; right. apply Qeq_sym. exact (Qred_correct _).
Qed.

(** Rounding to a double is monotone. *)
Lemma round_mono (x y : Q) :
  (x <= y)%Q -> (Js64.round x <=? Js64.round y)%js = true.
Proof.
  intros Hxy. unfold Js64.round.
  destruct (x ?= 0)%Q eqn:Ex; destruct (y ?= 0)%Q eqn:Ey;
    first [apply (proj2 (Qeq_alt _ _)) in Ex
          |apply (proj2 (Qlt_alt _ _)) in Ex
          |apply (proj2 (Qgt_alt _ _)) in Ex];
    first [apply (proj2 (Qeq_alt _ _)) in Ey
          |apply (proj2 (Qlt_alt _ _)) in Ey
          |apply (proj2 (Qgt_alt _ _)) in Ey];
    try (exfalso; lra).
  - reflexivity.
  - destruct (Js64.round_pos y) as [w|] eqn:Ew; [|reflexivity].
    apply leb_Fin. exact (round_pos_nonneg y w Ey Ew).
  - destruct (Js64.round_pos (- x)) as [v|] eqn:Ev; [|reflexivity].
    apply leb_Fin.
    assert (H := round_pos_nonneg (- x) v ltac:(lra) Ev). lra.
  - assert (Hx : (0 < - x)%Q) by lra. assert (Hy : (0 < - y)%Q) by lra.
    pose proof (round_pos_mono (- y) (- x) Hy ltac:(lra)) as H.
    destruct (Js64.round_pos (- x)) as [v|], (Js64.round_pos (- y)) as [w|];
      try reflexivity; try contradiction.
    apply leb_Fin. lra.
  - assert (Hx : (0 < - x)%Q) by lra.
    destruct (Js64.round_pos (- x)) as [v|] eqn:Ev,
             (Js64.round_pos y) as [w|] eqn:Ew; try reflexivity.
    apply leb_Fin.
    pose proof (round_pos_nonneg _ _ Hx Ev).
    pose proof (round_pos_nonneg _ _ Ey Ew). lra.
  - pose proof (round_pos_mono x y Ex Hxy) as H.
    destruct (Js64.round_pos x) as [v|], (Js64.round_pos y) as [w|];
      try reflexivity; try contradiction.
    now apply leb_Fin.
Qed.

Lemma round_not_nan (x : Q) : is_nan (Js64.round x) = false.
Proof.
  unfold Js64.round.
  destruct (x ?= 0)%Q; [reflexivity| |]; now destruct (Js64.round_pos _).
Qed.

Lemma leb_PInf (x : number) : is_nan x = false -> (x <=? PInf)%js = true.
Proof. now destruct x. Qed.

Lemma NInf_leb (x : number) : is_nan x = false -> (NInf <=? x)%js = true.
Proof. now destruct x. Qed.

(** The rounded operations are monotone where the timestamps of
    extractFrames use them. *)
Lemma div_mono (x y : number) (c : Q) :
  (0 < c)%Q -> (x <=? y)%js = true ->
  (Js64.div x (Fin c) <=? Js64.div y (Fin c))%js = true.
Proof.
  intros Hc H.
  assert (Hc0 : Qeq_bool c 0 = false).
  { destruct (Qeq_bool c 0) eqn:E; [|reflexivity].
    apply Qeq_bool_iff in E. rewrite E in Hc. discriminate. }
  assert (Hs : (c ?= 0)%Q = Gt) by (apply (proj1 (Qgt_alt _ _)); exact Hc).
  destruct x as [| | |a], y as [| | |b]; try discriminate;
    unfold Js64.div, Js.div, sgn; rewrite ?Hc0, ?Hs; simpl;
    try reflexivity.
  - apply NInf_leb, round_not_nan.
  - apply leb_PInf, round_not_nan.
  - apply round_mono. apply Qdiv_le_compat_r; [exact Hc|].
    now apply leb_Fin.
Qed.

Lemma add_mono (s : Q) (x y : number) :
  (x <=? y)%js = true ->
  (Js64.add (Fin s) x <=? Js64.add (Fin s) y)%js = true.
Proof.
  intros H.
  destruct x as [| | |a], y as [| | |b]; try discriminate;
    unfold Js64.add, Js.add; try reflexivity.
  - apply NInf_leb, round_not_nan.
  - apply leb_PInf, round_not_nan.
  - apply round_mono. apply leb_Fin in H. lra.
Qed.

Lemma mul_mono (i j : nat) (fi : Q) :
  (i <= j)%nat -> (0 <= fi)%Q ->
  (Js64.mul (of_nat i) (Fin fi) <=? Js64.mul (of_nat j) (Fin fi))%js = true.
Proof.
  intros Hij Hfi. unfold Js64.mul, of_nat, of_Z.
  apply round_mono. apply Qmult_le_compat_r; [|exact Hfi].
  rewrite <- Zle_Qle. lia.
Qed.

(** With a finite startTime and a finite interval that is not negative, the
    timestamp computed for a frame count does not decrease with the
    count. *)
Lemma timestamp_mono (s fi : Q) (i j : nat) :
  (0 <= fi)%Q -> (i <= j)%nat ->
  (Js64.add (Fin s) (Js64.div (Js64.mul (of_nat i) (Fin fi)) (of_Z 1000))
   <=? Js64.add (Fin s) (Js64.div (Js64.mul (of_nat j) (Fin fi)) (of_Z 1000)))%js
  = true.
Proof.
  intros Hfi Hij. apply add_mono. apply div_mono; [reflexivity|].
  now apply mul_mono.
Qed.

(** ** timeToSeconds *)


(** ** extractFrames *)

Section ExtractFramesFacts.

Import ExtractFrames.
Variables (startTime endTime : number) (options : Options).

Local Abbreviation run := (run startTime endTime options).
Local Abbreviation onSeeked := (onSeeked startTime endTime options).
Local Abbreviation totalFrames := (totalFrames startTime endTime options).
Local Abbreviation start := (start startTime).

(** Once the listener is removed, or no seek is under way, no further
    event reaches it. *)
Lemma run_stopped (st : State) (evs : list Seeked) :
  listening st && seeking st = false -> run st evs = st.
Proof.
  destruct evs as [|ev evs]; simpl; [reflexivity|].
  now intros ->.
Qed.

Lemma run_app (evs1 evs2 : list Seeked) (st : State) :
  run st (evs1 ++ evs2) = run (run st evs1) evs2.
Proof.
  revert st; induction evs1 as [|ev evs1 IH]; intros st; simpl.
  - reflexivity.
  - destruct (listening st && seeking st) eqn:E.
    + apply IH.
    + symmetry. now apply run_stopped.
Qed.

Lemma seek_inv_start : Invariants.seek_inv startTime endTime options start.
Proof.
  split; [reflexivity|split].
  - intros [|i] f; discriminate.
  - discriminate.
Qed.

Lemma seek_inv_onSeeked (st : State) (ev : Seeked) :
  promise st = Pending ->
  Invariants.seek_inv startTime endTime options st ->
  Invariants.seek_inv startTime endTime options (onSeeked st ev).
Proof.
  intros Hp (Hlen & Hnth & Hres).
  unfold ExtractFrames.onSeeked.
  destruct (_ >=? _)%js eqn:Hstop.
  - split; [exact Hlen|split; [exact Hnth|]]; simpl.
    rewrite Hp; simpl. intros fr [= <-]. now split.
  - destruct (_ <=? _)%nat.
    + split; [|split]; simpl.
      * rewrite length_app, Hlen; simpl; lia.
      * intros i f Hi.
        destruct (Nat.lt_ge_cases i (length (frames st))) as [Hlt|Hge].
        -- rewrite nth_error_app1 in Hi by assumption. now apply Hnth.
        -- rewrite nth_error_app2 in Hi by assumption.
           destruct (i - length (frames st))%nat as [|d] eqn:Hd.
           ++ assert (i = currentFrame st) by lia. subst i.
              injection Hi as <-. now repeat split.
           ++ destruct d; discriminate.
      * intros fr Hfr. congruence.
    + split; [exact Hlen|split; [exact Hnth|]]; simpl.
      intros fr Hfr. congruence.
Qed.

Lemma seek_inv_run (evs : list Seeked) (st : State) :
  (promise st = Pending \/ listening st = false) ->
  Invariants.seek_inv startTime endTime options st ->
  Invariants.seek_inv startTime endTime options (run st evs) /\
  (promise (run st evs) = Pending \/ listening (run st evs) = false).
Proof.
  revert st; induction evs as [|ev evs IH]; intros st Hp Hinv; simpl.
  - auto.
  - destruct (listening st && seeking st) eqn:E; [|auto].
    apply andb_prop in E. destruct E as [El _].
    destruct Hp as [Hp|Hp]; [|congruence].
    apply IH.
    + unfold ExtractFrames.onSeeked.
      destruct (_ >=? _)%js; [now right|].
      destruct (_ <=? _)%nat; now left.
    + now apply seek_inv_onSeeked.
Qed.

(** Liveness: when the seeks complete with enough data, the promise
    resolves at the first count [n] that reaches [totalFrames], with the
    [n - currentFrame] frames pushed on the way. *)
Lemma run_ready (n : nat) (evs : list Seeked) (st : State) :
  listening st = true -> seeking st = true -> promise st = Pending ->
  Forall (fun ev => (HAVE_CURRENT_DATA <= readyState ev)%nat) evs ->
  (of_nat n >=? totalFrames)%js = true ->
  (forall j, (currentFrame st <= j < n)%nat ->
             (of_nat j >=? totalFrames)%js = false) ->
  (currentFrame st <= n)%nat ->
  (n - currentFrame st < length evs)%nat ->
  exists new,
    promise (run st evs) = Resolved (frames st ++ new) /\
    length new = (n - currentFrame st)%nat.
Proof.
  revert st; induction evs as [|ev evs IH];
    intros st Hl Hs Hp Hready Hn Hbelow Hle Hlen; simpl in *; [lia|].
  rewrite Hl, Hs; simpl.
  inversion Hready as [|? ? Hev Hrest]; subst.
  destruct (Nat.eq_dec (currentFrame st) n) as [Heq|Hne].
  - rewrite <- Heq in Hn. exists []. rewrite run_stopped.
    + unfold ExtractFrames.onSeeked. rewrite Hn; simpl.
      rewrite Hp, app_nil_r. split; [reflexivity | lia].
    + unfold ExtractFrames.onSeeked. now rewrite Hn.
  - assert (Hstop : (of_nat (currentFrame st) >=? totalFrames)%js = false)
      by (apply Hbelow; lia).
    apply Nat.leb_le in Hev.
    destruct (IH (onSeeked st ev)) as [new [E Hnew]];
      unfold ExtractFrames.onSeeked; rewrite ?Hstop, ?Hev; simpl; auto.
    + intros j Hj. apply Hbelow. lia.
    + lia.
    + lia.
    + revert E Hnew. unfold ExtractFrames.onSeeked. rewrite Hstop, Hev; simpl.
      intros E Hnew. rewrite <- app_assoc in E.
      eexists; split; [exact E|]. simpl. lia.
Qed.

(** One invocation of the listener pushes the record of the seek that
    completed, when the loop has not reached totalFrames and the video has
    data, and nothing otherwise; the frame count advances with it. *)
Lemma onSeeked_pushes (st : State) (ev : Seeked) :
  let pushes :=
    negb (of_nat (currentFrame st) >=? totalFrames)%js
    && (HAVE_CURRENT_DATA <=? readyState ev)%nat in
  frames (onSeeked st ev)
  = frames st ++
    (if pushes
     then [Described.frame_of_seek startTime options (currentFrame st) ev]
     else []) /\
  currentFrame (onSeeked st ev)
  = if pushes then S (currentFrame st) else currentFrame st.
Proof.
  unfold ExtractFrames.onSeeked.
  destruct (_ >=? _)%js.
  - simpl. now rewrite app_nil_r.
  - destruct (_ <=? _)%nat; simpl.
    + split; reflexivity.
    + now rewrite app_nil_r.
Qed.

Lemma dispatch_app (evs1 evs2 : list Seeked) (st : State) :
  dispatch startTime endTime options st (evs1 ++ evs2)
  = dispatch startTime endTime options
      (dispatch startTime endTime options st evs1) evs2.
Proof.
  revert st; induction evs1 as [|ev evs1 IH]; intros st; simpl.
  - reflexivity.
  - destruct (listening st) eqn:E.
    + apply IH.
    + destruct evs2; simpl; [reflexivity|]. now rewrite E.
Qed.

(** The frames that events of any origin add are the records of the events
    that pushed one, in the order of the events, numbered from the frame
    count on. *)
Lemma dispatch_select (evs : list Seeked) (st : State) :
  exists keep : list bool,
    frames (dispatch startTime endTime options st evs)
    = frames st ++
      Described.frames_of_seeks startTime options (currentFrame st)
        (Described.select keep evs).
Proof.
  revert st; induction evs as [|ev evs IH]; intros st; simpl.
  - exists []. simpl. now rewrite app_nil_r.
  - destruct (listening st).
    + destruct (IH (onSeeked st ev)) as [keep Hkeep].
      destruct (onSeeked_pushes st ev) as [Ef Ec]. cbv zeta in Ef, Ec.
      rewrite Ef, Ec in Hkeep. rewrite Hkeep, <- app_assoc.
      match goal with
      | |- context [if ?c then [_] else []] => exists (c :: keep); destruct c
      end; reflexivity.
    + exists []. simpl. now rewrite app_nil_r.
Qed.

(** The course of an extraction is the dispatch of its seeked events up
    to the first one after which no seek is under way. *)
Lemma run_dispatch (evs : list Seeked) (st : State) :
  exists n : nat,
    run st evs = dispatch startTime endTime options st (firstn n evs).
Proof.
  revert st; induction evs as [|ev evs IH]; intros st; simpl.
  - exists 0%nat. reflexivity.
  - destruct (listening st) eqn:El; simpl.
    + destruct (seeking st).
      * destruct (IH (onSeeked st ev)) as [n Hn].
        exists (S n). simpl. now rewrite El.
      * exists 0%nat. reflexivity.
    + exists 0%nat. reflexivity.
Qed.

(** Whatever the browser does, the array is the description of the seeks
    handled so far that pushed a frame: the first [currentFrame] of them. *)
Lemma run_described (evs : list Seeked) (st : State) :
  (currentFrame st <= currentFrame (run st evs))%nat /\
  frames (run st evs)
  = frames st ++
    Described.frames_of_seeks startTime options (currentFrame st)
      (firstn (currentFrame (run st evs) - currentFrame st) evs).
Proof.
  revert st; induction evs as [|ev evs IH]; intros st; simpl.
  - rewrite Nat.sub_diag. simpl. now rewrite app_nil_r.
  - destruct (listening st && seeking st) eqn:E.
    2:{ rewrite Nat.sub_diag. simpl. now rewrite app_nil_r. }
    unfold ExtractFrames.onSeeked.
    destruct (_ >=? _)%js.
    + rewrite run_stopped by reflexivity. simpl.
      rewrite Nat.sub_diag. simpl. now rewrite app_nil_r.
    + destruct (_ <=? _)%nat.
      * match goal with |- context [ExtractFrames.run _ _ _ ?s evs] =>
          destruct (IH s) as [Hle Hfr]; set (st' := s) in * end.
        simpl in Hle, Hfr. split; [lia|].
        rewrite Hfr.
        replace (currentFrame (run st' evs) - currentFrame st)%nat
          with (S (currentFrame (run st' evs) - S (currentFrame st))) by lia.
        simpl. now rewrite <- app_assoc.
      * rewrite run_stopped by reflexivity. simpl.
        rewrite Nat.sub_diag. simpl. now rewrite app_nil_r.
Qed.

End ExtractFramesFacts.

Lemma ltb_leb_trans (x y z : number) :
  (x <? y)%js = true -> (y <=? z)%js = true -> (x <? z)%js = true.
Proof.
  destruct x, y, z; try discriminate; try reflexivity.
  rewrite !ltb_Fin, leb_Fin. apply Qlt_le_trans.
Qed.

Lemma geb_true_not_nan (x y : number) :
  (x >=? y)%js = true -> is_nan y = false.
Proof. destruct x, y; try discriminate; reflexivity. Qed.

(** The count bound on the state of the loop: a resolved array holds no
    more than maxFrames frames. *)
Lemma seek_inv_bound
    (startTime endTime : number) (options : ExtractFrames.Options)
    (mf : nat) (st : ExtractFrames.State) :
  ExtractFrames.maxFrames_ options = of_nat mf ->
  Invariants.seek_inv startTime endTime options st ->
  (exists fr, ExtractFrames.promise st = Resolved fr) ->
  (length (ExtractFrames.frames st) <= mf)%nat.
Proof.
  intros Hmf (Hlen & Hnth & Hfin) [fr Hres].
  destruct (Hfin _ Hres) as [_ Hstop].
  pose proof (geb_true_not_nan _ _ Hstop) as Hnan.
  destruct (length (ExtractFrames.frames st)) as [|i] eqn:El; [lia|].
  destruct (nth_error (ExtractFrames.frames st) i) as [f|] eqn:Ei.
  2:{ apply nth_error_None in Ei. lia. }
  destruct (Hnth i f Ei) as (_ & _ & Hbelow).
  assert (Hlt : (of_nat i <? ExtractFrames.totalFrames startTime endTime options)%js
                = true)
    by (apply leb_false_ltb; [exact Hnan | reflexivity | exact Hbelow]).
  unfold ExtractFrames.totalFrames in Hnan, Hlt.
  pose proof (ltb_leb_trans _ _ _ Hlt (min_leb_r _ _ Hnan)) as Hq.
  rewrite Hmf in Hq. apply ltb_Fin in Hq. rewrite <- Zlt_Qlt in Hq. lia.
Qed.

(** The loop of extractFrames stops at the count [frames_wanted]: that
    count has reached the bound, and no smaller count has. *)
Lemma frames_wanted_reached (t : number) :
  is_nan t = false -> t <> PInf ->
  (of_nat (Described.frames_wanted t) >=? t)%js = true.
Proof.
  destruct t as [| | |q]; intros Hn Hp; try discriminate; try congruence.
  - reflexivity.
  - unfold geb, of_nat, of_Z, Described.frames_wanted. apply leb_Fin.
    destruct (Z.le_gt_cases 0 (Qceiling q)) as [H|H].
    + rewrite Z2Nat.id by exact H. apply Qle_ceiling.
    + replace (Z.to_nat (Qceiling q)) with 0%nat by lia.
      eapply Qle_trans; [apply Qle_ceiling|].
      change (inject_Z (Z.of_nat 0)) with (inject_Z 0).
      rewrite <- (Zle_Qle (Qceiling q) 0). lia.
Qed.

Lemma frames_wanted_below (t : number) (j : nat) :
  is_nan t = false -> t <> PInf ->
  (j < Described.frames_wanted t)%nat ->
  (of_nat j >=? t)%js = false.
Proof.
  destruct t as [| | |q]; intros Hn Hp Hj; try discriminate; try congruence.
  - simpl in Hj. lia.
  - unfold Described.frames_wanted in Hj.
    apply Bool.not_true_iff_false. unfold geb, of_nat, of_Z.
    rewrite leb_Fin. intros Hle.
    pose proof (Qceiling_lt q) as Hc.
    assert (H : (inject_Z (Qceiling q - 1) < inject_Z (Z.of_nat j))%Q)
      by (eapply Qlt_le_trans; eassumption).
    rewrite <- Zlt_Qlt in H. lia.
Qed.

(** C1 (as amended): on a canvas with a 2D context, for finite times and a
    frameInterval other than zero, let T be min(floor((endTime - startTime)
    * 1000 / frameInterval), maxFrames) as the code computes it, every
    operator rounding to a double.  When T is a number below +Infinity and
    every seek completes with readyState >= HAVE_CURRENT_DATA, extractFrames
    resolves with the least number of frames that is not below T: exactly
    max(0, T) frames when T is an integer, and never more than maxFrames
    when maxFrames is a natural number.  The loop ends after that many
    captures, at the next completed seek.  (A zero interval is left out
    because the quotient by zero takes the sign of the zero.) *)
Theorem extractFrames_count
    (startTime endTime : number) (options : ExtractFrames.Options)
    (canvas : Canvas) (evs : list ExtractFrames.Seeked) :
  let T :=
    Js.min
      (Js.floor
         ((endTime - startTime) * of_Z 1000
          / ExtractFrames.frameInterval_ options)%f64)
      (ExtractFrames.maxFrames_ options) in
  has2d canvas = true ->
  is_finite startTime = true ->
  is_finite endTime = true ->
  truthy (ExtractFrames.frameInterval_ options) = true ->
  is_nan T = false ->
  T <> PInf ->
  Forall (fun ev =>
            (ExtractFrames.HAVE_CURRENT_DATA <= ExtractFrames.readyState ev)%nat)
         evs ->
  (Described.frames_wanted T < length evs)%nat ->
  exists frames,
    ExtractFrames.extractFrames startTime endTime options canvas evs
    = Resolved frames /\
    length frames = Described.frames_wanted T /\
    (forall z : Z, T = of_Z z -> length frames = Z.to_nat (Z.max 0 z)) /\
    (forall mf : nat,
       ExtractFrames.maxFrames_ options = of_nat mf ->
       (length frames <= mf)%nat).
Proof.
  intros T Hctx _ _ _ Hnan Hinf Hready Hlen.
  assert (HT : ExtractFrames.totalFrames startTime endTime options = T)
    by reflexivity.
  clearbody T.
  destruct (run_ready startTime endTime options (Described.frames_wanted T) evs
              (ExtractFrames.start startTime)) as [new [E Hnew]];
    simpl; auto.
  - rewrite HT. now apply frames_wanted_reached.
  - intros j Hj. rewrite HT.
    apply frames_wanted_below; [assumption|assumption|lia].
  - lia.
  - lia.
  - simpl in E, Hnew. rewrite Nat.sub_0_r in Hnew.
    exists new. unfold ExtractFrames.extractFrames. rewrite Hctx; simpl.
    split; [exact E|]. split; [exact Hnew|]. split.
    + intros z Hz. rewrite Hnew, Hz.
      unfold Described.frames_wanted, of_Z.
      rewrite Qceiling_Z. lia.
    + intros mf Hmf.
      destruct (seek_inv_run startTime endTime options evs
                  (ExtractFrames.start startTime)) as [Hinv _];
        [now left | apply seek_inv_start |].
      pose proof (seek_inv_bound startTime endTime options mf _ Hmf Hinv
                    (ex_intro _ _ E)) as Hb.
      destruct Hinv as (_ & _ & Hfin). destruct (Hfin _ E) as [-> _].
      exact Hb.
Qed.

Lemma extractFrames_count_witness :
  exists frames,
    ExtractFrames.extractFrames (of_Z 0) (Js64.double (3 # 10))
      ExtractFrames.noOptions (mkCanvas true)
      (repeat (ExtractFrames.mkSeeked 4 (fun _ => "data:image/jpeg")) 5)
    = Resolved frames /\
    length frames = 3%nat /\
    (forall z : Z, of_Z 3 = of_Z z -> length frames = Z.to_nat (Z.max 0 z)) /\
    (forall mf : nat, of_Z 100 = of_nat mf -> (length frames <= mf)%nat).
Proof.
  apply (extractFrames_count (of_Z 0) (Js64.double (3 # 10))
           ExtractFrames.noOptions (mkCanvas true)
           (repeat (ExtractFrames.mkSeeked 4 (fun _ => "data:image/jpeg")) 5)).
  - reflexivity.
  - reflexivity.
  - vm_compute. reflexivity.
  - reflexivity.
  - vm_compute. reflexivity.
  - vm_compute. discriminate.
  - repeat constructor.
  - vm_compute. lia.
Defined.

(** When totalFrames is NaN (a zero interval with endTime = startTime), the
    comparison with the frame count is never true, and the promise stays
    pending however many seeks complete. *)
Lemma extractFrames_pending_on_nan
    (startTime endTime : number) (options : ExtractFrames.Options)
    (evs : list ExtractFrames.Seeked) (st : ExtractFrames.State) :
  ExtractFrames.totalFrames startTime endTime options = NaN ->
  ExtractFrames.promise st = Pending ->
  ExtractFrames.promise (ExtractFrames.run startTime endTime options st evs)
  = Pending.
Proof.
  intros HT. revert st; induction evs as [|ev evs IH]; intros st Hp; simpl.
  - exact Hp.
  - destruct (_ && _); [|exact Hp].
    apply IH. unfold ExtractFrames.onSeeked. rewrite HT.
    replace (of_nat (ExtractFrames.currentFrame st) >=? NaN)%js with false
      by reflexivity.
    now destruct (_ <=? _)%nat.
Qed.

Example totalFrames_nan :
  ExtractFrames.totalFrames (of_Z 1) (of_Z 1)
    (ExtractFrames.mkOptions None None (Some (of_Z 0)))
  = NaN.
Proof. reflexivity. Qed.

(** C1 as stated fails when endTime is before startTime: the formula gives
    the negative number -10, and the array resolved has no frame. *)
Lemma extractFrames_count_counterexample :
  ExtractFrames.totalFrames (of_Z 2) (of_Z 1) ExtractFrames.noOptions
  = of_Z (-10) /\
  ~ (forall frames,
       ExtractFrames.extractFrames (of_Z 2) (of_Z 1) ExtractFrames.noOptions
         (mkCanvas true)
         [ExtractFrames.mkSeeked 4 (fun _ => "data:image/jpeg")]
       = Resolved frames ->
       (of_nat (length frames)
        == ExtractFrames.totalFrames (of_Z 2) (of_Z 1) ExtractFrames.noOptions)%js).
Proof.
  split; [reflexivity|].
  intros H. specialize (H [] eq_refl). vm_compute in H. discriminate.
Qed.

Lemma frameNumber_succ (i : nat) : (of_nat i + of_Z 1 == of_nat (S i))%js.
Proof.
  unfold of_nat, of_Z, Js.add, Js.eq.
  rewrite Nat2Z.inj_succ, <- Z.add_1_r.
  rewrite inject_Z_plus. reflexivity.
Qed.




(** ** extractActualFrames *)

Section ExtractActualFramesFacts.

Import ExtractActualFrames.
Variables (startTime endTime : number) (options : Options).

Local Abbreviation run := (run startTime endTime options).
Local Abbreviation processFrame := (processFrame startTime endTime options).
Local Abbreviation in_range := (Invariants.in_range startTime endTime).
Local Abbreviation frame_inv := (Invariants.frame_inv startTime endTime).
Local Abbreviation progress_of := (Invariants.progress_of startTime endTime).

Lemma actual_run_stopped (st : State) (evs : list Presented) :
  requested st = false -> run st evs = st.
Proof.
  destruct evs as [|ev evs]; simpl; [reflexivity|].
  now intros ->.
Qed.

Lemma actual_run_app (evs1 evs2 : list Presented) (st : State) :
  run st (evs1 ++ evs2) = run (run st evs1) evs2.
Proof.
  revert st; induction evs1 as [|ev evs1 IH]; intros st; simpl.
  - reflexivity.
  - destruct (requested st) eqn:E.
    + apply IH.
    + symmetry. now apply actual_run_stopped.
Qed.

(** One invocation of processFrame leaves the array alone or pushes one
    frame at its end: the frame presented, stamped with its mediaTime,
    which is then neither below startTime nor above endTime, and the
    count was below maxFrames. *)
Lemma processFrame_frames (st : State) (ev : Presented) :
  frames (processFrame st ev) = frames st /\
  frameCount (processFrame st ev) = frameCount st \/
  (mediaTime (frameMetadata ev) <? startTime)%js = false /\
  (mediaTime (frameMetadata ev) >? endTime)%js = false /\
  (of_nat (frameCount st) >=? maxFrames_ options)%js = false /\
  frameCount (processFrame st ev) = S (frameCount st) /\
  exists f,
    timestamp f = mediaTime (frameMetadata ev) /\
    frames (processFrame st ev) = frames st ++ [f].
Proof.
  unfold ExtractActualFrames.processFrame.
  destruct (_ <? _)%js eqn:E1; [now left|].
  destruct (_ >? _)%js eqn:E2; [now left|].
  destruct (_ >=? _)%js eqn:E3; [now left|].
  right. repeat (split; [reflexivity|]).
  destruct (_ && _); simpl; (split; [reflexivity|]);
    eexists; (split; [|reflexivity]); reflexivity.
Qed.

(** What processFrame reports: nothing, or the progress of a frame whose
    mediaTime is neither below startTime nor above endTime. *)
Lemma processFrame_reported (st : State) (ev : Presented) :
  reported (processFrame st ev) = reported st \/
  (mediaTime (frameMetadata ev) <? startTime)%js = false /\
  (mediaTime (frameMetadata ev) >? endTime)%js = false /\
  reported (processFrame st ev) = reported st ++ [progress_of ev].
Proof.
  unfold ExtractActualFrames.processFrame, report.
  destruct (_ <? _)%js eqn:E1; [now left|].
  destruct (_ >? _)%js eqn:E2; [now left|].
  destruct (_ >=? _)%js eqn:E3; [now left|].
  simpl.
  destruct (onProgress options); destruct (_ && _); simpl; auto.
Qed.

(** One invocation of processFrame pushes the record of the presented
    frame when its mediaTime is neither below startTime nor above endTime
    and the count is below maxFrames, and nothing otherwise. *)
Lemma processFrame_pushes (st : State) (ev : Presented) :
  let pushes :=
    negb (Described.before_start startTime ev)
    && negb (Described.past_end endTime ev)
    && negb (of_nat (frameCount st) >=? maxFrames_ options)%js in
  frames (processFrame st ev)
  = frames st ++
    (if pushes then [Described.frame_of_presented options ev] else []) /\
  frameCount (processFrame st ev)
  = if pushes then S (frameCount st) else frameCount st.
Proof.
  unfold ExtractActualFrames.processFrame, Described.before_start,
    Described.past_end.
  destruct (mediaTime (frameMetadata ev) <? startTime)%js; simpl.
  { now rewrite app_nil_r. }
  destruct (mediaTime (frameMetadata ev) >? endTime)%js; simpl.
  { now rewrite app_nil_r. }
  destruct (of_nat (frameCount st) >=? maxFrames_ options)%js; simpl.
  { now rewrite app_nil_r. }
  destruct (_ && _); simpl; split; reflexivity.
Qed.

(** The frames a run adds are the records of some of its events, in the
    order of the events. *)
Lemma actual_run_select (evs : list Presented) (st : State) :
  exists keep : list bool,
    frames (run st evs)
    = frames st ++
      map (Described.frame_of_presented options) (Described.select keep evs).
Proof.
  revert st; induction evs as [|ev evs IH]; intros st; simpl.
  - exists []. simpl. now rewrite app_nil_r.
  - destruct (requested st).
    + destruct (IH (processFrame st ev)) as [keep Hkeep].
      destruct (processFrame_pushes st ev) as [E _]. cbv zeta in E.
      rewrite E in Hkeep. rewrite Hkeep, <- app_assoc.
      match goal with
      | |- context [if ?c then [_] else []] => exists (c :: keep); destruct c
      end; reflexivity.
    + exists []. simpl. now rewrite app_nil_r.
Qed.

Lemma run_reported (P : number -> Prop) (ok : Presented -> Prop) :
  (forall ev,
     ok ev ->
     (mediaTime (frameMetadata ev) <? startTime)%js = false ->
     (mediaTime (frameMetadata ev) >? endTime)%js = false ->
     P (progress_of ev)) ->
  forall (evs : list Presented) (st : State),
    Forall ok evs -> Forall P (reported st) ->
    Forall P (reported (run st evs)).
Proof.
  intros HP. induction evs as [|ev evs IH]; intros st Hok Hst; simpl.
  - exact Hst.
  - destruct (requested st); [|exact Hst].
    inversion Hok as [|? ? Hev Hrest]; subst.
    apply IH; [exact Hrest|].
    destruct (processFrame_reported st ev) as [E|(E1 & E2 & E)]; rewrite E.
    + exact Hst.
    + apply Forall_app. split; [exact Hst|].
      constructor; [|constructor]. now apply HP.
Qed.

Section Bounded.

Variable mf : nat.
Hypothesis Hstart : is_nan startTime = false.
Hypothesis Hend : is_nan endTime = false.
Hypothesis Hmf : maxFrames_ options = of_nat mf.

Lemma frame_inv_processFrame (st : State) (ev : Presented) :
  is_nan (mediaTime (frameMetadata ev)) = false ->
  requested st = true ->
  frame_inv mf st -> frame_inv mf (processFrame st ev).
Proof.
  intros Hm Hreq (Hlen & Hcount & Hrange & Hpend & Hres).
  specialize (Hpend Hreq).
  unfold ExtractActualFrames.processFrame.
  destruct (_ <? _)%js eqn:E1.
  { repeat split; simpl; auto. }
  destruct ((_ >? _)%js || _) eqn:E2.
  { split; [exact Hlen|]. split; [exact Hcount|]. split; [exact Hrange|].
    simpl. split; [discriminate|].
    rewrite Hpend; simpl. now intros fr [= <-]. }
  apply orb_false_elim in E2. destruct E2 as [E2 E3].
  assert (Hin : in_range
            {| dataUrl := frameToDataURL ev (quality_ options);
               timestamp := mediaTime (frameMetadata ev);
               frameNumber := presentedFrames (frameMetadata ev);
               metadata := Some (frameMetadata ev) |}).
  { split; simpl.
    - now apply ltb_false_leb.
    - now apply ltb_false_leb. }
  assert (Hlt : (frameCount st < mf)%nat).
  { rewrite Hmf in E3. apply geb_of_Z_false in E3. lia. }
  destruct (_ && _); unfold Invariants.frame_inv; simpl.
  - split; [rewrite length_app, Hlen; simpl; lia|].
    split; [lia|]. split; [apply Forall_app; auto|].
    split; [auto|]. rewrite Hpend. discriminate.
  - split; [rewrite length_app, Hlen; simpl; lia|].
    split; [lia|]. split; [apply Forall_app; auto|].
    split; [discriminate|]. rewrite Hpend; simpl. now intros fr [= <-].
Qed.

Lemma frame_inv_run (evs : list Presented) (st : State) :
  Forall (fun ev => is_nan (mediaTime (frameMetadata ev)) = false) evs ->
  frame_inv mf st -> frame_inv mf (run st evs).
Proof.
  revert st; induction evs as [|ev evs IH]; intros st Hevs Hinv; simpl.
  - exact Hinv.
  - destruct (requested st) eqn:Hreq; [|exact Hinv].
    inversion Hevs as [|? ? Hev Hrest]; subst.
    apply IH; [exact Hrest|]. now apply frame_inv_processFrame.
Qed.

Lemma frame_inv_execute (canvas : Canvas) (supported : bool) :
  frame_inv mf (execute canvas supported).
Proof.
  unfold execute.
  destruct (negb (has2d canvas)); [|destruct supported];
    (split; [reflexivity|]; split; [simpl; lia|];
     split; [constructor|]; split; simpl; [auto; discriminate|]);
    try discriminate; now intros fr [= <-].
Qed.

End Bounded.

End ExtractActualFramesFacts.

(** C2 (as amended): for times other than NaN and a natural number
    maxFrames, every frame of the array that extractActualFrames resolves
    with has its timestamp (the mediaTime of the frame) in the closed
    interval [startTime, endTime], and the array holds at most maxFrames
    frames. *)
Theorem extractActualFrames_bounds
    (startTime endTime : number) (options : ExtractActualFrames.Options)
    (canvas : Canvas) (supported : bool) (evs : list Presented)
    (mf : nat) (frames : list FrameInfo) :
  is_nan startTime = false ->
  is_nan endTime = false ->
  ExtractActualFrames.maxFrames_ options = of_nat mf ->
  Forall (fun ev => is_nan (mediaTime (frameMetadata ev)) = false) evs ->
  ExtractActualFrames.promise
    (ExtractActualFrames.extractActualFrames startTime endTime options
       canvas supported evs)
  = Resolved frames ->
  Forall (fun f => (startTime <=? timestamp f)%js = true /\
                   (timestamp f <=? endTime)%js = true) frames /\
  (length frames <= mf)%nat.
Proof.
  intros Hs He Hmf Hevs Hres.
  destruct (frame_inv_run startTime endTime options mf Hs He Hmf evs
              (ExtractActualFrames.execute canvas supported) Hevs
              (frame_inv_execute startTime endTime mf canvas supported))
    as (Hlen & Hcount & Hrange & _ & Hfin).
  rewrite (Hfin _ Hres). split; [exact Hrange|].
  rewrite Hlen. exact Hcount.
Qed.

Lemma extractActualFrames_bounds_witness :
  let frame (m : Q) (k : Z) :=
    mkPresented (of_Z 0)
      (mkMetadata (of_Z 0) (of_Z 0) (of_Z 640) (of_Z 360) (Fin m) (of_Z k)
         (of_Z 0))
      (fun _ => "data:image/jpeg") in
  let frames :=
    [mkFrame "data:image/jpeg" (Fin (3 # 2)) (of_Z 2)
       (Some (mkMetadata (of_Z 0) (of_Z 0) (of_Z 640) (of_Z 360) (Fin (3 # 2))
                (of_Z 2) (of_Z 0)))] in
  Forall (fun f => (of_Z 1 <=? timestamp f)%js = true /\
                   (timestamp f <=? of_Z 2)%js = true) frames /\
  (length frames <= 100)%nat.
Proof.
  intros frame frames.
  apply (extractActualFrames_bounds (of_Z 1) (of_Z 2)
           ExtractActualFrames.noOptions (mkCanvas true) true
           [frame (1 # 2)%Q 1; frame (3 # 2)%Q 2; frame (5 # 2)%Q 3]
           100 frames).
  - reflexivity.
  - reflexivity.
  - reflexivity.
  - repeat constructor.
  - reflexivity.
Defined.

(** C2 as stated fails for a maxFrames that is not a whole number and for
    an endTime that is NaN.  With maxFrames 2.5 the count 2 is still below
    the bound, a third frame is pushed, and the array resolved holds 3
    frames.  With endTime NaN the test mediaTime > endTime is false for
    every frame, the frame presented at 5 seconds is pushed, and
    5 <= endTime is false. *)
Lemma extractActualFrames_bounds_counterexample :
  let frame (m k : Z) :=
    mkPresented (of_Z 0)
      (mkMetadata (of_Z 0) (of_Z 0) (of_Z 640) (of_Z 360) (of_Z m) (of_Z k)
         (of_Z 0))
      (fun _ => "data:image/jpeg") in
  (exists frames,
     ExtractActualFrames.promise
       (ExtractActualFrames.extractActualFrames (of_Z 0) (of_Z 10)
          (ExtractActualFrames.mkOptions (Some (Fin (5 # 2))) None false)
          (mkCanvas true) true [frame 1 1; frame 2 2; frame 3 3; frame 4 4])
     = Resolved frames /\
     length frames = 3%nat /\
     (of_nat (length frames) <=? Fin (5 # 2))%js = false) /\
  (exists frames f,
     ExtractActualFrames.promise
       (ExtractActualFrames.extractActualFrames (of_Z 0) NaN
          ExtractActualFrames.noOptions (mkCanvas true) true [frame 5 1])
     = Resolved frames /\
     In f frames /\
     timestamp f = of_Z 5 /\
     (timestamp f <=? NaN)%js = false).
Proof.
  intros frame. split.
  - eexists. split; [reflexivity|]. split; reflexivity.
  - eexists. eexists. split; [reflexivity|].
    split; [left; reflexivity|]. split; reflexivity.
Qed.

(** C6 (as amended): where requestVideoFrameCallback is absent,
    extractActualFrames resolves with the empty array: it does not reject,
    registers no callback and captures nothing, whatever the browser
    presents.  It warns on the console when the canvas yields a 2D context,
    and returns before the warning when it does not. *)
Theorem extractActualFrames_unsupported
    (startTime endTime : number) (options : ExtractActualFrames.Options)
    (canvas : Canvas) (evs : list Presented) :
  let r :=
    ExtractActualFrames.extractActualFrames startTime endTime options
      canvas false evs in
  ExtractActualFrames.promise r = Resolved [] /\
  ExtractActualFrames.frames r = [] /\
  ExtractActualFrames.reported r = [] /\
  ExtractActualFrames.playing r = false /\
  ExtractActualFrames.console r =
    if has2d canvas then [ExtractActualFrames.unsupported_warning] else [].
Proof.
  unfold ExtractActualFrames.extractActualFrames, ExtractActualFrames.execute.
  destruct (has2d canvas); simpl;
    rewrite actual_run_stopped by reflexivity; simpl; auto.
Qed.

(** C6 as stated fails on a canvas without a 2D context: the empty array is
    resolved before the support check, and nothing is written to the
    console. *)
Lemma extractActualFrames_unsupported_counterexample :
  let r :=
    ExtractActualFrames.extractActualFrames (of_Z 0) (of_Z 1)
      ExtractActualFrames.noOptions (mkCanvas false) false [] in
  ExtractActualFrames.promise r = Resolved [] /\
  ~ In ExtractActualFrames.unsupported_warning (ExtractActualFrames.console r).
Proof.
  split; [reflexivity|]. intros [].
Qed.

(** ** Order of the frame arrays *)

Lemma handleFrameCapture_all (fs : list FrameInfo) (st : Page.PageState) :
  Page.capturedFrames (fold_left (fun s f => Page.handleFrameCapture f s) fs st)
  = Page.capturedFrames st ++ fs.
Proof.
  revert st; induction fs as [|f fs IH]; intros st; simpl.
  - now rewrite app_nil_r.
  - rewrite IH. simpl. now rewrite <- app_assoc.
Qed.

(** C3: array order is capture order.  handleFrameCapture appends the new
    record at the end of capturedFrames and changes no other array, so a
    sequence of captures is stored in the order of the captures.  One
    invocation of the listener of extractFrames pushes the record of the
    seek that completed at the end of its array, or leaves the array alone
    when the loop has ended or the video has no data; one invocation of
    processFrame pushes the record of the presented frame at the end, or
    leaves the array alone when the frame is out of the range or the count
    has reached maxFrames.  The array after more browser events is the
    array before them followed by the records of the events that pushed
    one, in the order of the events; for extractFrames the events are the
    seeked events of any origin that reach the listener. *)
Theorem frames_in_capture_order :
  (forall (f : FrameInfo) (st : Page.PageState),
     Page.capturedFrames (Page.handleFrameCapture f st)
     = Page.capturedFrames st ++ [f] /\
     Page.extractedFrames (Page.handleFrameCapture f st)
     = Page.extractedFrames st /\
     Page.actualFrames (Page.handleFrameCapture f st) = Page.actualFrames st) /\
  (forall (fs : list FrameInfo) (st : Page.PageState),
     Page.capturedFrames
       (fold_left (fun s f => Page.handleFrameCapture f s) fs st)
     = Page.capturedFrames st ++ fs) /\
  (forall startTime endTime options st ev,
     let pushes :=
       negb (of_nat (ExtractFrames.currentFrame st)
             >=? ExtractFrames.totalFrames startTime endTime options)%js
       && (ExtractFrames.HAVE_CURRENT_DATA <=? ExtractFrames.readyState ev)%nat in
     ExtractFrames.frames (ExtractFrames.onSeeked startTime endTime options st ev)
     = ExtractFrames.frames st ++
       (if pushes
        then [Described.frame_of_seek startTime options
                (ExtractFrames.currentFrame st) ev]
        else []) /\
     ExtractFrames.currentFrame
       (ExtractFrames.onSeeked startTime endTime options st ev)
     = if pushes then S (ExtractFrames.currentFrame st)
       else ExtractFrames.currentFrame st) /\
  (forall startTime endTime options st evs1 evs2,
     let before := ExtractFrames.dispatch startTime endTime options st evs1 in
     let after :=
       ExtractFrames.dispatch startTime endTime options st (evs1 ++ evs2) in
     exists keep : list bool,
       ExtractFrames.frames after
       = ExtractFrames.frames before ++
         Described.frames_of_seeks startTime options
           (ExtractFrames.currentFrame before) (Described.select keep evs2)) /\
  (forall startTime endTime options st ev,
     let pushes :=
       negb (Described.before_start startTime ev)
       && negb (Described.past_end endTime ev)
       && negb (of_nat (ExtractActualFrames.frameCount st)
                >=? ExtractActualFrames.maxFrames_ options)%js in
     ExtractActualFrames.frames
       (ExtractActualFrames.processFrame startTime endTime options st ev)
     = ExtractActualFrames.frames st ++
       (if pushes then [Described.frame_of_presented options ev] else []) /\
     ExtractActualFrames.frameCount
       (ExtractActualFrames.processFrame startTime endTime options st ev)
     = if pushes then S (ExtractActualFrames.frameCount st)
       else ExtractActualFrames.frameCount st) /\
  (forall startTime endTime options st evs1 evs2,
     exists keep : list bool,
       ExtractActualFrames.frames
         (ExtractActualFrames.run startTime endTime options st (evs1 ++ evs2))
       = ExtractActualFrames.frames
           (ExtractActualFrames.run startTime endTime options st evs1) ++
         map (Described.frame_of_presented options)
           (Described.select keep evs2)).
Proof.
  split; [intros; repeat split; reflexivity|].
  split; [apply handleFrameCapture_all|].
  split; [intros; apply onSeeked_pushes|].
  split; [intros; subst before after; rewrite dispatch_app;
          apply dispatch_select|].
  split; [intros; apply processFrame_pushes|].
  intros. rewrite actual_run_app. apply actual_run_select.
Qed.

(** ** Progress values *)

Lemma min_clamped (x : number) : Invariants.clamped (Js.min x (of_Z 100)).
Proof.
  unfold Invariants.clamped.
  destruct (is_nan (Js.min x (of_Z 100))) eqn:E; [now left|right].
  now apply min_leb_r.
Qed.

Lemma min_percentage (x : number) :
  (of_Z 0 <=? x)%js = true -> Invariants.percentage (Js.min x (of_Z 100)).
Proof.
  intros H0. unfold Invariants.percentage.
  assert (Hn : is_nan (Js.min x (of_Z 100)) = false).
  { destruct x; try discriminate; simpl; [reflexivity|].
    unfold Js.min; simpl. now destruct (q ?= inject_Z 100)%Q. }
  split; [|now apply min_leb_r].
  unfold Js.min in *.
  destruct (cmp x (of_Z 100)) as [[]|]; try assumption; try reflexivity.
  discriminate.
Qed.

Lemma Qdiv_nonneg (a b : Q) : (0 <= a)%Q -> (0 < b)%Q -> (0 <= a / b * 100)%Q.
Proof.
  intros Ha Hb. apply Qmult_le_0_compat; [|discriminate].
  apply Qle_shift_div_l; [exact Hb|]. now rewrite Qmult_0_l.
Qed.

Lemma Qpos_neq_bool (b : Q) : (0 < b)%Q -> Qeq_bool b 0 = false.
Proof.
  intros Hb. destruct (Qeq_bool b 0) eqn:E; [|reflexivity].
  apply Qeq_bool_iff in E. rewrite E in Hb. discriminate.
Qed.

(** In extractActualFrames, between finite times with startTime before
    endTime, the ratio computed for a captured frame is not negative. *)
Lemma actual_ratio_nonneg (s e : Q) (m : number) :
  (s < e)%Q -> is_nan m = false ->
  (m <? Fin s)%js = false -> (m >? Fin e)%js = false ->
  (of_Z 0 <=? (m - Fin s) / (Fin e - Fin s) * of_Z 100)%js = true.
Proof.
  intros Hse Hm Hlo Hhi.
  destruct m as [| | |mq]; try discriminate.
  apply (ltb_false_leb (Fin mq) (Fin s)) in Hlo; try reflexivity.
  apply leb_Fin in Hlo.
  assert (Hpos : (0 < e - s)%Q) by lra.
  simpl. rewrite (Qpos_neq_bool _ Hpos). simpl.
  apply leb_Fin. apply Qdiv_nonneg; [lra | exact Hpos].
Qed.

(** In analyzeVideoFrames, for a finite mediaTime that is not negative and
    a positive duration, the ratio is not negative. *)
Lemma analyze_ratio_nonneg (m : Q) (d : number) :
  (0 <= m)%Q -> (of_Z 0 <? d)%js = true ->
  (of_Z 0 <=? Fin m / d * of_Z 100)%js = true.
Proof.
  intros Hm Hd.
  destruct d as [| | |q]; try discriminate.
  - reflexivity.
  - apply ltb_Fin in Hd. simpl. rewrite (Qpos_neq_bool _ Hd). simpl.
    apply leb_Fin. now apply Qdiv_nonneg.
Qed.

Section AnalyzeFacts.

Import Analyze.
Variables (video : Video) (onProgress : bool).

Local Abbreviation run := (run video onProgress).
Local Abbreviation countFrame := (countFrame video onProgress).

Lemma analyze_run_stopped (st : State) (evs : list Presented) :
  requested st = false -> run st evs = st.
Proof.
  destruct evs as [|ev evs]; simpl; [reflexivity|].
  now intros ->.
Qed.

(** countFrame reports the progress of every frame it counts. *)
Lemma countFrame_reported (st : State) (ev : Presented) :
  reported (countFrame st ev) = reported st \/
  reported (countFrame st ev)
  = reported st ++
    [Js.min (mediaTime (frameMetadata ev) / to_number (video_duration video)
             * of_Z 100)%js (of_Z 100)].
Proof.
  unfold Analyze.countFrame, report.
  destruct onProgress; destruct (_ <? _)%js; simpl; auto.
Qed.

Lemma analyze_run_reported (P : number -> Prop) (ok : Presented -> Prop) :
  (forall ev,
     ok ev ->
     P (Js.min (mediaTime (frameMetadata ev) / to_number (video_duration video)
                * of_Z 100)%js (of_Z 100))) ->
  forall (evs : list Presented) (st : State),
    Forall ok evs -> Forall P (reported st) ->
    Forall P (reported (run st evs)).
Proof.
  intros HP. induction evs as [|ev evs IH]; intros st Hok Hst; simpl.
  - exact Hst.
  - destruct (requested st); [|exact Hst].
    inversion Hok as [|? ? Hev Hrest]; subst.
    apply IH; [exact Hrest|].
    destruct (countFrame_reported st ev) as [E|E]; rewrite E.
    + exact Hst.
    + apply Forall_app. split; [exact Hst|].
      constructor; [|constructor]. now apply HP.
Qed.

Lemma execute_reported (supported : bool) (playFailure : option Thrown) :
  reported (execute video supported playFailure) = [].
Proof.
  unfold execute.
  destruct (negb _); [reflexivity|]. now destruct supported.
Qed.

(** A rejected or resolved promise is not settled again. *)
Lemma analyze_run_settled (evs : list Presented) (st : State) :
  promise st <> Pending -> promise (run st evs) = promise st.
Proof.
  revert st; induction evs as [|ev evs IH]; intros st Hp; simpl.
  - reflexivity.
  - destruct (requested st); [|reflexivity].
    assert (E : promise (countFrame st ev) = promise st).
    { unfold Analyze.countFrame. destruct (_ <? _)%js; simpl; [reflexivity|].
      destruct (promise st); [contradiction|reflexivity|reflexivity]. }
    rewrite IH; [exact E|]. now rewrite E.
Qed.

(** On the frame callback path, a resolved analysis has
    fps = totalFrames / duration. *)
Lemma analyze_run_fps (evs : list Presented) (st : State) :
  (forall a, promise st = Resolved a ->
             fps a = (totalFrames a / duration a)%js) ->
  forall a, promise (run st evs) = Resolved a ->
            fps a = (totalFrames a / duration a)%js.
Proof.
  revert st; induction evs as [|ev evs IH]; intros st Hst; simpl.
  - exact Hst.
  - destruct (requested st); [|exact Hst].
    apply IH. unfold Analyze.countFrame.
    destruct (_ <? _)%js; simpl; [exact Hst|].
    destruct (promise st) eqn:Ep; simpl.
    + now intros a [= <-].
    + exact Hst.
    + discriminate.
Qed.

End AnalyzeFacts.

Lemma actual_execute_reported (canvas : Canvas) (supported : bool) :
  ExtractActualFrames.reported (ExtractActualFrames.execute canvas supported)
  = [].
Proof.
  unfold ExtractActualFrames.execute.
  destruct (negb _); [reflexivity|]. now destruct supported.
Qed.

(** C8 (as amended): every progress value passed to onProgress is the
    minimum of a ratio and 100, so it is at most 100 or it is NaN.  Between
    finite times with endTime > startTime, for frames whose mediaTime is not
    NaN (extractActualFrames), and for finite mediaTime >= 0 with
    duration > 0 (analyzeVideoFrames), every reported value lies in
    [0, 100]. *)
Theorem progress_bounds :
  (forall startTime endTime options canvas supported evs,
     Forall Invariants.clamped
       (ExtractActualFrames.reported
          (ExtractActualFrames.extractActualFrames startTime endTime options
             canvas supported evs))) /\
  (forall video onProgress supported playFailure evs,
     Forall Invariants.clamped
       (Analyze.reported
          (Analyze.analyzeVideoFrames video onProgress supported playFailure
             evs))) /\
  (forall (s e : Q) options canvas supported evs,
     (s < e)%Q ->
     Forall (fun ev => is_nan (mediaTime (frameMetadata ev)) = false) evs ->
     Forall Invariants.percentage
       (ExtractActualFrames.reported
          (ExtractActualFrames.extractActualFrames (Fin s) (Fin e) options
             canvas supported evs))) /\
  (forall video d onProgress supported playFailure evs,
     video_duration video = Some d ->
     (of_Z 0 <? d)%js = true ->
     Forall (fun ev => exists m : Q,
                 mediaTime (frameMetadata ev) = Fin m /\ (0 <= m)%Q) evs ->
     Forall Invariants.percentage
       (Analyze.reported
          (Analyze.analyzeVideoFrames video onProgress supported playFailure
             evs))).
Proof.
  split; [|split; [|split]].
  - intros s e o c b evs.
    apply (run_reported s e o Invariants.clamped (fun _ => True)).
    + intros ev _ _ _. apply min_clamped.
    + apply Forall_forall. auto.
    + rewrite actual_execute_reported. constructor.
  - intros v p b pf evs.
    apply (analyze_run_reported v p Invariants.clamped (fun _ => True)).
    + intros ev _. apply min_clamped.
    + apply Forall_forall. auto.
    + rewrite execute_reported. constructor.
  - intros s e o c b evs Hse Hevs.
    apply (run_reported (Fin s) (Fin e) o Invariants.percentage
             (fun ev => is_nan (mediaTime (frameMetadata ev)) = false)).
    + intros ev Hm Hlo Hhi. apply min_percentage.
      now apply actual_ratio_nonneg.
    + exact Hevs.
    + rewrite actual_execute_reported. constructor.
  - intros v d p b pf evs Hd Hpos Hevs.
    apply (analyze_run_reported v p Invariants.percentage
             (fun ev => exists m : Q,
                  mediaTime (frameMetadata ev) = Fin m /\ (0 <= m)%Q)).
    + intros ev (m & -> & Hm). apply min_percentage.
      rewrite Hd. simpl. now apply analyze_ratio_nonneg.
    + exact Hevs.
    + rewrite execute_reported. constructor.
Qed.

Lemma progress_bounds_witness :
  let frame (m : Q) (k : Z) :=
    mkPresented (of_Z 0)
      (mkMetadata (of_Z 0) (of_Z 0) (of_Z 640) (of_Z 360) (Fin m) (of_Z k)
         (of_Z 0))
      (fun _ => "data:image/jpeg") in
  Forall Invariants.percentage
    (ExtractActualFrames.reported
       (ExtractActualFrames.extractActualFrames (Fin 1) (Fin 2)
          (ExtractActualFrames.mkOptions None None true) (mkCanvas true) true
          [frame (1 # 2)%Q 1; frame (3 # 2)%Q 2; frame (5 # 2)%Q 3])) /\
  Forall Invariants.percentage
    (Analyze.reported
       (Analyze.analyzeVideoFrames (mkVideo (Some (of_Z 1))) true true None
          [frame 0%Q 1; frame (1 # 2)%Q 2; frame 1%Q 3])).
Proof.
  intros frame.
  destruct progress_bounds as (_ & _ & Hactual & Hanalyze).
  split.
  - apply (Hactual 1%Q 2%Q).
    + reflexivity.
    + repeat constructor.
  - apply (Hanalyze (mkVideo (Some (of_Z 1))) (of_Z 1)).
    + reflexivity.
    + reflexivity.
    + repeat constructor.
      * exists 0%Q. split; [reflexivity|discriminate].
      * exists (1 # 2)%Q. split; [reflexivity|discriminate].
      * exists 1%Q. split; [reflexivity|discriminate].
Defined.

(** C8 as stated fails when endTime equals startTime: the frame presented at
    that time is captured, its ratio is 0 / 0, and onProgress receives NaN,
    which is not at most 100. *)
Lemma progress_bounds_counterexample :
  let r :=
    ExtractActualFrames.extractActualFrames (of_Z 1) (of_Z 1)
      (ExtractActualFrames.mkOptions None None true) (mkCanvas true) true
      [mkPresented (of_Z 0)
         (mkMetadata (of_Z 0) (of_Z 0) (of_Z 640) (of_Z 360) (of_Z 1) (of_Z 1)
            (of_Z 0))
         (fun _ => "data:image/jpeg")] in
  ExtractActualFrames.reported r = [NaN] /\
  ~ (forall p, In p (ExtractActualFrames.reported r) ->
               (p <=? of_Z 100)%js = true).
Proof.
  split; [reflexivity|].
  intros H. specialize (H NaN (or_introl eq_refl)). discriminate.
Qed.

(** ** analyzeVideoFrames and handleAnalyzeVideo *)

(** The falsy values of video.duration: undefined, NaN and zero. *)
Lemma falsy_duration (d : option number) :
  truthy_opt d = false <->
  d = None \/ d = Some NaN \/ exists q : Q, d = Some (Fin q) /\ (q == 0)%Q.
Proof.
  split.
  - destruct d as [[| | |q]|]; simpl; try discriminate; auto.
    intros H. right; right. exists q. split; [reflexivity|].
    apply Qeq_bool_iff. now destruct (Qeq_bool q 0).
  - intros [->|[->|(q & -> & Hq)]]; simpl; try reflexivity.
    apply Qeq_bool_iff in Hq. now rewrite Hq.
Qed.

Lemma setAnalysisProgress_fold (l : list number) (st : Page.PageState) :
  let st' := fold_left (fun s p => Page.setAnalysisProgress p s) l st in
  st' = Page.setAnalysisProgress (last l (Page.analysisProgress st)) st.
Proof.
  revert st; induction l as [|p l IH] using rev_ind; intros st; simpl.
  - now destruct st.
  - rewrite fold_left_app, last_last. simpl. rewrite IH. reflexivity.
Qed.

Lemma handleAnalyzeVideo_rejected
    (b : Page.Browser) (st : Page.PageState) (video : Video) (message : string) :
  Page.video b = Some video ->
  Analyze.promise
    (Analyze.analyzeVideoFrames video true (Page.supportsFrameCallback b)
       (Page.playFailure b) (Page.presented b))
  = Rejected (ErrorObject message) ->
  Page.analysisError (fst (Page.handleAnalyzeVideo b st)) = Some message /\
  Page.videoAnalysis (fst (Page.handleAnalyzeVideo b st)) = None.
Proof.
  intros Hv Hp. unfold Page.handleAnalyzeVideo. rewrite Hv.
  unfold Analyze.analyzeVideoFrames in Hp.
  destruct (Analyze.promise
              (Analyze.execute video (Page.supportsFrameCallback b)
                 (Page.playFailure b))) as [|a|e] eqn:E0.
  - rewrite Hp. simpl. rewrite setAnalysisProgress_fold. split; reflexivity.
  - rewrite analyze_run_settled in Hp by (rewrite E0; discriminate).
    rewrite E0 in Hp. discriminate.
  - rewrite analyze_run_settled in Hp by (rewrite E0; discriminate).
    rewrite E0 in Hp. injection Hp as ->.
    simpl. rewrite setAnalysisProgress_fold. split; reflexivity.
Qed.

(** C5: when video.duration is falsy (zero, NaN or undefined),
    analyzeVideoFrames rejects with an Error whose message is
    'No video loaded or video duration is invalid', whatever the browser
    does; and handleAnalyzeVideo stores the message of a rejection with an
    Error in analysisError and leaves videoAnalysis null. *)
Theorem analyzeVideoFrames_invalid_duration
    (video : Video) (onProgress supported : bool)
    (playFailure : option Thrown) (evs : list Presented) :
  truthy_opt (video_duration video) = false ->
  Analyze.promise
    (Analyze.analyzeVideoFrames video onProgress supported playFailure evs)
  = Rejected (ErrorObject "No video loaded or video duration is invalid") /\
  (forall (b : Page.Browser) (st : Page.PageState),
     Page.video b = Some video ->
     Page.analysisError (fst (Page.handleAnalyzeVideo b st))
     = Some "No video loaded or video duration is invalid" /\
     Page.videoAnalysis (fst (Page.handleAnalyzeVideo b st)) = None) /\
  (forall (b : Page.Browser) (st : Page.PageState) (v : Video)
          (message : string),
     Page.video b = Some v ->
     Analyze.promise
       (Analyze.analyzeVideoFrames v true (Page.supportsFrameCallback b)
          (Page.playFailure b) (Page.presented b))
     = Rejected (ErrorObject message) ->
     Page.analysisError (fst (Page.handleAnalyzeVideo b st)) = Some message /\
     Page.videoAnalysis (fst (Page.handleAnalyzeVideo b st)) = None).
Proof.
  intros Hd.
  assert (Hrej : forall p s pf l,
            Analyze.promise (Analyze.analyzeVideoFrames video p s pf l)
            = Rejected (ErrorObject Analyze.invalid_duration)).
  { intros p s pf l. unfold Analyze.analyzeVideoFrames, Analyze.execute.
    rewrite Hd; simpl. now rewrite analyze_run_stopped. }
  split; [apply Hrej|]. split.
  - intros b st Hv. apply (handleAnalyzeVideo_rejected b st video); auto.
  - intros b st v message. apply handleAnalyzeVideo_rejected.
Qed.

Lemma analyzeVideoFrames_invalid_duration_witness :
  Analyze.promise
    (Analyze.analyzeVideoFrames (mkVideo (Some NaN)) true true None [])
  = Rejected (ErrorObject "No video loaded or video duration is invalid") /\
  Page.analysisError
    (fst (Page.handleAnalyzeVideo
            (Page.mkBrowser (Some (mkVideo (Some NaN))) (Some (mkCanvas true))
               true [] [] None)
            Page.initial))
  = Some "No video loaded or video duration is invalid".
Proof.
  destruct (analyzeVideoFrames_invalid_duration (mkVideo (Some NaN)) true true
              None [] eq_refl) as (H1 & H2 & _).
  split; [exact H1|].
  exact (proj1 (H2 (Page.mkBrowser (Some (mkVideo (Some NaN)))
                      (Some (mkCanvas true)) true [] [] None)
                   Page.initial eq_refl)).
Defined.

(** X27: on the frame callback path a resolved analysis satisfies
    fps = totalFrames / duration. *)
Lemma analyzeVideoFrames_fps
    (video : Video) (onProgress : bool) (playFailure : option Thrown)
    (evs : list Presented) (a : Analyze.Analysis) :
  Analyze.promise
    (Analyze.analyzeVideoFrames video onProgress true playFailure evs)
  = Resolved a ->
  Analyze.fps a = (Analyze.totalFrames a / Analyze.duration a)%js.
Proof.
  unfold Analyze.analyzeVideoFrames. apply analyze_run_fps.
  unfold Analyze.execute.
  destruct (negb _); simpl; [discriminate|].
  destruct playFailure; discriminate.
Qed.

(** On the fallback path the analysis assumes 30 frames per second. *)
Lemma analyzeVideoFrames_fallback
    (video : Video) (onProgress : bool) (playFailure : option Thrown)
    (evs : list Presented) :
  truthy_opt (video_duration video) = true ->
  Analyze.promise
    (Analyze.analyzeVideoFrames video onProgress false playFailure evs)
  = Resolved
      {| Analyze.totalFrames :=
           Js.round (to_number (video_duration video) * of_Z 30)%f64;
         Analyze.duration := to_number (video_duration video);
         Analyze.fps := of_Z 30 |}.
Proof.
  intros Hd. unfold Analyze.analyzeVideoFrames, Analyze.execute.
  rewrite Hd; simpl. now rewrite analyze_run_stopped.
Qed.

(** C10, at a video of one second whose frames are presented at 0, 1/2 and
    1: the first counted frame has mediaTime 0, which the test
    [!startTime] takes for "not yet set", so startTime is assigned again
    from the second frame.  The analysis resolves with duration 1/2 and
    fps 6, where the last mediaTime minus the first is 1 and gives fps 3. *)
Theorem analyzeVideoFrames_first_frame_at_zero :
  let frame (m : Q) (k : Z) :=
    mkPresented (of_Z 0)
      (mkMetadata (of_Z 0) (of_Z 0) (of_Z 640) (of_Z 360) (Fin m) (of_Z k)
         (of_Z 0))
      (fun _ => "data:image/jpeg") in
  let r :=
    Analyze.analyzeVideoFrames (mkVideo (Some (of_Z 1))) false true None
      [frame 0%Q 1; frame (1 # 2)%Q 2; frame 1%Q 3] in
  Analyze.promise r
  = Resolved {| Analyze.totalFrames := of_Z 3;
                Analyze.duration := Fin (1 # 2);
                Analyze.fps := of_Z 6 |} /\
  Analyze.startTime r = Some (Fin (1 # 2)) /\
  Analyze.lastTime r = Some (of_Z 1) /\
  ~ (Fin (1 # 2) == of_Z 1 - of_Z 0)%js.
Proof.
  repeat split; try reflexivity.
  intros H. vm_compute in H. discriminate.
Qed.

(** ** Invalid time ranges *)

(** C4 (as amended): when timeToSeconds(endTime) <= timeToSeconds(startTime),
    handleExtractFrames and handleExtractActualFrames return without calling
    the extraction function and leave the page state, hence the
    extractedFrames and actualFrames arrays, unchanged; they show the alert
    "End time must be greater than start time" when the document has both a
    video and a canvas element, and return silently when one is missing. *)
Theorem invalid_range_handlers (b : Page.Browser) (st : Page.PageState) :
  (timeToSeconds (Page.endTime st) <=? timeToSeconds (Page.startTime st))%js
  = true ->
  let effects :=
    match Page.video b, Page.canvas b with
    | Some _, Some _ => [Page.Alert "End time must be greater than start time"]
    | _, _ => []
    end in
  Page.handleExtractFrames b st = (st, effects) /\
  Page.handleExtractActualFrames b st = (st, effects).
Proof.
  intros H. unfold Page.handleExtractFrames, Page.handleExtractActualFrames.
  destruct (Page.video b), (Page.canvas b); simpl; rewrite ?H; split; reflexivity.
Qed.

Lemma invalid_range_handlers_witness :
  let b :=
    Page.mkBrowser (Some (mkVideo (Some (of_Z 10)))) (Some (mkCanvas true))
      true [] [] None in
  Page.handleExtractFrames b Page.initial
  = (Page.initial, [Page.Alert "End time must be greater than start time"]) /\
  Page.handleExtractActualFrames b Page.initial
  = (Page.initial, [Page.Alert "End time must be greater than start time"]).
Proof.
  intros b. apply (invalid_range_handlers b Page.initial). reflexivity.
Defined.

(** C4 as stated fails on the page as it loads: no video is chosen, so the
    document has no video element, and both handlers return before the
    comparison, without an alert. *)
Lemma invalid_range_handlers_counterexample :
  let b := Page.mkBrowser None (Some (mkCanvas true)) true [] [] None in
  (timeToSeconds (Page.endTime Page.initial)
   <=? timeToSeconds (Page.startTime Page.initial))%js = true /\
  ~ In (Page.Alert "End time must be greater than start time")
       (snd (Page.handleExtractFrames b Page.initial)) /\
  ~ In (Page.Alert "End time must be greater than start time")
       (snd (Page.handleExtractActualFrames b Page.initial)).
Proof.
  split; [reflexivity|]. split; intros [].
Qed.

(** * Further properties of the helpers *)

(** ** extractFrames: what the array holds and when the promise settles *)

Section ExtractFramesMore.

Import ExtractFrames.
Variables (startTime endTime : number) (options : Options).

Local Abbreviation run := (run startTime endTime options).
Local Abbreviation onSeeked := (onSeeked startTime endTime options).
Local Abbreviation totalFrames := (totalFrames startTime endTime options).
Local Abbreviation frames_of_seeks :=
  (Described.frames_of_seeks startTime options).

(** Seeks that complete with enough data, below totalFrames, each push the
    frame described by [frame_of_seek] and start the next seek. *)
Lemma run_ready_steps (evs : list Seeked) (st : State) :
  listening st = true -> seeking st = true ->
  Forall (fun ev => (HAVE_CURRENT_DATA <= readyState ev)%nat) evs ->
  (forall j, (currentFrame st <= j < currentFrame st + length evs)%nat ->
             (of_nat j >=? totalFrames)%js = false) ->
  listening (run st evs) = true /\
  seeking (run st evs) = true /\
  promise (run st evs) = promise st /\
  currentFrame (run st evs) = (currentFrame st + length evs)%nat /\
  frames (run st evs) = frames st ++ frames_of_seeks (currentFrame st) evs.
Proof.
  revert st; induction evs as [|ev evs IH]; intros st Hl Hs Hready Hbelow.
  - simpl. rewrite Nat.add_0_r, app_nil_r. auto.
  - simpl. rewrite Hl, Hs; simpl.
    inversion Hready as [|? ? Hev Hrest]; subst.
    assert (Hstop : (of_nat (currentFrame st) >=? totalFrames)%js = false)
      by (apply Hbelow; simpl; lia).
    apply Nat.leb_le in Hev.
    assert (E : onSeeked st ev
                = {| frames :=
                       frames st ++
                       [Described.frame_of_seek startTime options
                          (currentFrame st) ev];
                     currentFrame := S (currentFrame st);
                     currentTime :=
                       (startTime + of_nat (S (currentFrame st))
                                    * frameInterval_ options / of_Z 1000)%f64;
                     seeking := true;
                     listening := true;
                     promise := promise st |}).
    { unfold ExtractFrames.onSeeked. now rewrite Hstop, Hev. }
    rewrite E. clear E.
    match goal with |- context [ExtractFrames.run _ _ _ ?s evs] =>
      set (st' := s) in * end.
    destruct (IH st' eq_refl eq_refl Hrest) as (H1 & H2 & H3 & H4 & H5).
    { simpl. intros j Hj. apply Hbelow. simpl. lia. }
    simpl in *. rewrite H4, H5, <- app_assoc. simpl.
    split; [exact H1|]. split; [exact H2|]. split; [exact H3|].
    split; [lia|reflexivity].
Qed.

End ExtractFramesMore.

Lemma frames_of_seeks_length
    (startTime : number) (options : ExtractFrames.Options)
    (evs : list ExtractFrames.Seeked) (k : nat) :
  length (Described.frames_of_seeks startTime options k evs) = length evs.
Proof.
  revert k; induction evs as [|ev evs IH]; intros k; simpl; [reflexivity|].
  now rewrite IH.
Qed.



(** X2: once extractFrames has resolved, the listener is gone: seeks that
    complete afterwards do not change the resolved array. *)
Theorem extractFrames_settled
    (startTime endTime : number) (options : ExtractFrames.Options)
    (canvas : Canvas) (evs later : list ExtractFrames.Seeked)
    (frames : list FrameInfo) :
  ExtractFrames.extractFrames startTime endTime options canvas evs
  = Resolved frames ->
  ExtractFrames.extractFrames startTime endTime options canvas (evs ++ later)
  = Resolved frames.
Proof.
  unfold ExtractFrames.extractFrames.
  destruct (negb (has2d canvas)); [auto|].
  intros Hres. rewrite run_app.
  destruct (seek_inv_run startTime endTime options evs
              (ExtractFrames.start startTime)) as [_ [Hp|Hl]];
    [now left | apply seek_inv_start | congruence |].
  rewrite run_stopped; [exact Hres|]. now rewrite Hl.
Qed.

Lemma extractFrames_settled_witness :
  ExtractFrames.extractFrames (of_Z 0) (Js64.double (1 # 10))
    ExtractFrames.noOptions (mkCanvas true)
    ([ExtractFrames.mkSeeked 4 (fun _ => "a");
      ExtractFrames.mkSeeked 4 (fun _ => "b")]
     ++ [ExtractFrames.mkSeeked 4 (fun _ => "c")])
  = Resolved
      [mkFrame "a" (of_Z 0 + of_nat 0 * of_Z 100 / of_Z 1000)%f64
         (of_nat 0 + of_Z 1)%js None].
Proof.
  apply (extractFrames_settled (of_Z 0) (Js64.double (1 # 10))
           ExtractFrames.noOptions (mkCanvas true)).
  vm_compute. reflexivity.
Defined.

(** X3: for a natural number maxFrames, extractFrames never resolves with
    more than maxFrames frames, whatever the times, the interval and the
    ready states of the seeks are. *)
Theorem extractFrames_at_most_maxFrames
    (startTime endTime : number) (options : ExtractFrames.Options)
    (canvas : Canvas) (evs : list ExtractFrames.Seeked)
    (mf : nat) (frames : list FrameInfo) :
  ExtractFrames.maxFrames_ options = of_nat mf ->
  ExtractFrames.extractFrames startTime endTime options canvas evs
  = Resolved frames ->
  (length frames <= mf)%nat.
Proof.
  intros Hmf. unfold ExtractFrames.extractFrames.
  destruct (negb (has2d canvas)); [intros [= <-]; simpl; lia|].
  intros Hres.
  destruct (seek_inv_run startTime endTime options evs
              (ExtractFrames.start startTime)) as [Hinv _];
    [now left | apply seek_inv_start |].
  pose proof (seek_inv_bound _ _ _ mf _ Hmf Hinv (ex_intro _ _ Hres)) as Hb.
  destruct Hinv as (_ & _ & Hfin). now destruct (Hfin _ Hres) as [-> _].
Qed.

Lemma extractFrames_at_most_maxFrames_witness :
  (length
     [mkFrame "a" (NInf + of_nat 0 * of_Z 100 / of_Z 1000)%f64
        (of_nat 0 + of_Z 1)%js None;
      mkFrame "a" (NInf + of_nat 1 * of_Z 100 / of_Z 1000)%f64
        (of_nat 1 + of_Z 1)%js None] <= 2)%nat.
Proof.
  apply (extractFrames_at_most_maxFrames NInf PInf
           (ExtractFrames.mkOptions (Some (of_Z 2)) None None)
           (mkCanvas true)
           (repeat (ExtractFrames.mkSeeked 2 (fun _ => "a")) 3)
           2).
  - reflexivity.
  - vm_compute. reflexivity.
Defined.

(** 0 / 0: with a zero interval and endTime equal to startTime the
    quotient, and so totalFrames, is NaN. *)
Lemma totalFrames_zero_interval
    (s fi : Q) (options : ExtractFrames.Options) :
  ExtractFrames.frameInterval_ options = Fin fi -> (fi == 0)%Q ->
  ExtractFrames.totalFrames (Fin s) (Fin s) options = NaN.
Proof.
  intros Hfi H0. unfold ExtractFrames.totalFrames, ExtractFrames.duration_.
  rewrite Hfi. unfold Js64.sub.
  assert (E : Js64.round (s - s) = Fin 0).
  { unfold Js64.round.
    now rewrite (proj1 (Qeq_alt (s - s) 0)) by ring. }
  rewrite E. unfold Js64.mul, Js64.div, of_Z.
  change (Js64.round (0 * inject_Z 1000)) with (Fin 0).
  apply Qeq_bool_iff in H0. rewrite H0. reflexivity.
Qed.

(** X5: with a zero frameInterval and endTime equal to startTime,
    totalFrames is NaN (0 / 0) and no frame count ever reaches it: while the
    seeks complete with enough data, extractFrames pushes a frame at every
    seek and never resolves. *)
Theorem extractFrames_never_resolves
    (s fi : Q) (options : ExtractFrames.Options) (canvas : Canvas)
    (evs : list ExtractFrames.Seeked) :
  has2d canvas = true ->
  ExtractFrames.frameInterval_ options = Fin fi -> (fi == 0)%Q ->
  Forall (fun ev =>
            (ExtractFrames.HAVE_CURRENT_DATA <= ExtractFrames.readyState ev)%nat)
         evs ->
  ExtractFrames.extractFrames (Fin s) (Fin s) options canvas evs = Pending /\
  length
    (ExtractFrames.frames
       (ExtractFrames.run (Fin s) (Fin s) options
          (ExtractFrames.start (Fin s)) evs))
  = length evs.
Proof.
  intros Hctx Hfi H0 Hready.
  pose proof (totalFrames_zero_interval s fi options Hfi H0) as HT.
  destruct (run_ready_steps (Fin s) (Fin s) options evs
              (ExtractFrames.start (Fin s)) eq_refl eq_refl Hready)
    as (_ & _ & Hp & _ & Hf).
  { intros j _. rewrite HT. reflexivity. }
  unfold ExtractFrames.extractFrames. rewrite Hctx; simpl.
  split; [exact Hp|].
  rewrite Hf. simpl. apply frames_of_seeks_length.
Qed.

Lemma extractFrames_never_resolves_witness :
  ExtractFrames.extractFrames (Fin 5) (Fin 5)
    (ExtractFrames.mkOptions None None (Some (Fin 0))) (mkCanvas true)
    (repeat (ExtractFrames.mkSeeked 4 (fun _ => "a")) 7)
  = Pending /\
  length
    (ExtractFrames.frames
       (ExtractFrames.run (Fin 5) (Fin 5)
          (ExtractFrames.mkOptions None None (Some (Fin 0)))
          (ExtractFrames.start (Fin 5))
          (repeat (ExtractFrames.mkSeeked 4 (fun _ => "a")) 7)))
  = length (repeat (ExtractFrames.mkSeeked 4 (fun _ => "a")) 7).
Proof.
  apply (extractFrames_never_resolves 5 0).
  - reflexivity.
  - reflexivity.
  - reflexivity.
  - repeat constructor.
Defined.

(** ** extractActualFrames: what is captured and when the promise settles *)

Lemma ltb_of_nat (a b : nat) : (of_nat a <? of_nat b)%js = true <-> (a < b)%nat.
Proof.
  unfold of_nat, of_Z. rewrite ltb_Fin, <- Zlt_Qlt. lia.
Qed.

Lemma ltb_of_nat_false (a b : nat) :
  (of_nat a <? of_nat b)%js = false <-> (b <= a)%nat.
Proof.
  rewrite <- Bool.not_true_iff_false, ltb_of_nat. lia.
Qed.

(** A frame past endTime is not before startTime when startTime <= endTime. *)
Lemma past_end_not_before (s e m : number) :
  (s <=? e)%js = true -> (m >? e)%js = true -> (m <? s)%js = false.
Proof.
  unfold gtb. intros Hse Hem.
  destruct (m <? s)%js eqn:E; [|reflexivity].
  pose proof (ltb_leb_trans _ _ _ E Hse) as H1.
  destruct m as [| | |m], e as [| | |e]; try discriminate.
  apply ltb_Fin in H1. apply ltb_Fin in Hem.
  exfalso. apply (Qlt_irrefl m). now apply Qlt_trans with e.
Qed.

Section ExtractActualFramesMore.

Import ExtractActualFrames.
Variables (startTime endTime : number) (options : Options).

Local Abbreviation run := (run startTime endTime options).
Local Abbreviation processFrame := (processFrame startTime endTime options).
Local Abbreviation running := Described.running.
Local Abbreviation finished := Described.finished.
Local Abbreviation frame_of := (Described.frame_of_presented options).
Local Abbreviation before_start := (Described.before_start startTime).
Local Abbreviation past_end := (Described.past_end endTime).

(** A frame before startTime changes nothing: the callback is registered
    again and that is all. *)
Lemma processFrame_skip (st : State) (ev : Presented) :
  requested st = true -> before_start ev = true -> processFrame st ev = st.
Proof.
  unfold Described.before_start, ExtractActualFrames.processFrame.
  intros Hreq ->. destruct st; simpl in *. now subst.
Qed.

Lemma processFrame_state (st : State) (ev : Presented) :
  running st -> running (processFrame st ev) \/ finished (processFrame st ev).
Proof.
  intros (Hreq & Hplay & Hp).
  unfold ExtractActualFrames.processFrame.
  destruct (_ <? _)%js; [left; now repeat split|].
  destruct (_ || _).
  { right. repeat split; simpl. now rewrite Hp. }
  destruct (_ && _).
  - left. now repeat split.
  - right. repeat split; simpl. now rewrite Hp.
Qed.

Lemma run_state (evs : list Presented) (st : State) :
  running st \/ finished st ->
  running (run st evs) \/ finished (run st evs).
Proof.
  revert st; induction evs as [|ev evs IH]; intros st Hst; simpl; [exact Hst|].
  destruct (requested st) eqn:Hreq; [|exact Hst].
  apply IH. destruct Hst as [Hrun|(Hf & _)]; [|congruence].
  now apply processFrame_state.
Qed.

Lemma execute_running (canvas : Canvas) :
  has2d canvas = true -> running (execute canvas true).
Proof.
  intros H. unfold execute. rewrite H. simpl. now repeat split.
Qed.

(** onProgress is called once for each frame pushed. *)
Lemma processFrame_progress (st : State) (ev : Presented) :
  onProgress options = true ->
  length (reported st) = length (frames st) ->
  length (reported (processFrame st ev)) = length (frames (processFrame st ev)).
Proof.
  intros Hon H. unfold ExtractActualFrames.processFrame, report. rewrite Hon.
  destruct (_ <? _)%js; [exact H|].
  destruct (_ || _); [exact H|].
  destruct (_ && _); simpl; rewrite !length_app, H; reflexivity.
Qed.

Lemma processFrame_silent (st : State) (ev : Presented) :
  onProgress options = false ->
  reported (processFrame st ev) = reported st.
Proof.
  intros Hoff. unfold ExtractActualFrames.processFrame, report. rewrite Hoff.
  destruct (_ <? _)%js; [reflexivity|].
  destruct (_ || _); [reflexivity|].
  destruct (_ && _); reflexivity.
Qed.

Lemma run_progress (evs : list Presented) (st : State) :
  (if onProgress options
   then length (reported st) = length (frames st)
   else reported st = []) ->
  if onProgress options
  then length (reported (run st evs)) = length (frames (run st evs))
  else reported (run st evs) = [].
Proof.
  revert st; induction evs as [|ev evs IH]; intros st H; simpl; [exact H|].
  destruct (requested st); [|exact H].
  apply IH. destruct (onProgress options) eqn:Hon.
  - now apply processFrame_progress.
  - now rewrite processFrame_silent.
Qed.

Lemma run_skips (evs : list Presented) (st : State) :
  run st evs = run st (filter (fun ev => negb (before_start ev)) evs).
Proof.
  revert st; induction evs as [|ev evs IH]; intros st; simpl; [reflexivity|].
  destruct (requested st) eqn:Hreq.
  - destruct (before_start ev) eqn:Hb; simpl.
    + rewrite processFrame_skip by assumption. apply IH.
    + rewrite Hreq. apply IH.
  - now rewrite actual_run_stopped.
Qed.

Section Described.

Variable mf : nat.
Hypothesis Hend : is_nan endTime = false.
Hypothesis Hmf : maxFrames_ options = of_nat mf.

Lemma run_captured (evs : list Presented) (st : State) :
  requested st = true ->
  Forall (fun ev => is_nan (mediaTime (frameMetadata ev)) = false) evs ->
  frames (run st evs)
  = frames st ++
    map frame_of
      (firstn (mf - frameCount st)
         (Described.take_while (fun ev => negb (past_end ev))
            (filter (fun ev => negb (before_start ev)) evs))).
Proof.
  revert st; induction evs as [|ev evs IH]; intros st Hreq Hevs.
  { simpl. rewrite firstn_nil. simpl. now rewrite app_nil_r. }
  inversion Hevs as [|? ? Hm Hrest]; subst.
  simpl. rewrite Hreq.
  destruct (before_start ev) eqn:Hb; simpl.
  { rewrite processFrame_skip by assumption. now apply IH. }
  unfold ExtractActualFrames.processFrame.
  unfold Described.before_start in Hb. rewrite Hb.
  destruct (past_end ev) eqn:Hpast; unfold Described.past_end in Hpast;
    rewrite Hpast; simpl.
  { rewrite actual_run_stopped by reflexivity. simpl.
    rewrite firstn_nil. simpl. now rewrite app_nil_r. }
  destruct (_ >=? _)%js eqn:Hfull.
  { rewrite actual_run_stopped by reflexivity. simpl.
    rewrite Hmf in Hfull. apply geb_of_Z in Hfull.
    replace (mf - frameCount st)%nat with 0%nat by lia.
    simpl. now rewrite app_nil_r. }
  rewrite Hmf in Hfull. apply geb_of_Z_false in Hfull.
  assert (Hle : (mediaTime (frameMetadata ev) <=? endTime)%js = true)
    by (apply ltb_false_leb; assumption).
  rewrite Hle; simpl.
  replace (mf - frameCount st)%nat with (S (mf - S (frameCount st))) by lia.
  simpl.
  destruct (of_nat (S (frameCount st)) <? maxFrames_ options)%js eqn:Hmore.
  - rewrite IH; [|reflexivity|exact Hrest]. simpl.
    now rewrite <- app_assoc.
  - rewrite actual_run_stopped by reflexivity. simpl.
    rewrite Hmf in Hmore. apply ltb_of_nat_false in Hmore.
    replace (mf - S (frameCount st))%nat with 0%nat by lia.
    reflexivity.
Qed.

End Described.

End ExtractActualFramesMore.





(** X9: extractActualFrames calls onProgress exactly once for each frame it
    pushes, and reports nothing when no callback is given. *)
Theorem extractActualFrames_progress_calls
    (startTime endTime : number) (options : ExtractActualFrames.Options)
    (canvas : Canvas) (supported : bool) (evs : list Presented) :
  let r :=
    ExtractActualFrames.extractActualFrames startTime endTime options
      canvas supported evs in
  if ExtractActualFrames.onProgress options
  then length (ExtractActualFrames.reported r)
       = length (ExtractActualFrames.frames r)
  else ExtractActualFrames.reported r = [].
Proof.
  apply run_progress.
  unfold ExtractActualFrames.execute.
  destruct (ExtractActualFrames.onProgress options);
    destruct (negb _); try destruct supported; reflexivity.
Qed.

(** X10: frames presented before startTime have no effect on
    extractActualFrames: the outcome is the one for the presented frames
    with those left out. *)
Theorem extractActualFrames_skips_early_frames
    (startTime endTime : number) (options : ExtractActualFrames.Options)
    (canvas : Canvas) (supported : bool) (evs : list Presented) :
  ExtractActualFrames.extractActualFrames startTime endTime options
    canvas supported evs
  = ExtractActualFrames.extractActualFrames startTime endTime options
      canvas supported
      (filter (fun ev => negb (mediaTime (frameMetadata ev) <? startTime)%js)
         evs).
Proof.
  unfold ExtractActualFrames.extractActualFrames. apply run_skips.
Qed.



(** ** analyzeVideoFrames: counting, settling and the reported figures *)

Section AnalyzeMore.

Import Analyze.
Variables (video : Video) (onProgress : bool).

Local Abbreviation run := (run video onProgress).
Local Abbreviation countFrame := (countFrame video onProgress).
Local Abbreviation before_end :=
  (fun ev : Presented =>
     (mediaTime (frameMetadata ev) <? to_number (video_duration video))%js).

(** Once startTime holds a truthy value it is not assigned again. *)
Lemma countFrame_keeps_start (st : State) (ev : Presented) :
  truthy_opt (startTime st) = true ->
  startTime (countFrame st ev) = startTime st.
Proof.
  intros H. unfold Analyze.countFrame. rewrite H. simpl.
  now destruct (_ <? _)%js.
Qed.

(** The first frame counted sets startTime to its mediaTime. *)
Lemma countFrame_sets_start (st : State) (ev : Presented) :
  startTime st = None ->
  startTime (countFrame st ev) = Some (mediaTime (frameMetadata ev)).
Proof.
  intros H. unfold Analyze.countFrame. rewrite H. simpl.
  now destruct (_ <? _)%js.
Qed.

(** Frames before video.duration are counted and the callback is registered
    again. *)
Lemma run_counting (evs : list Presented) (st : State) :
  requested st = true ->
  Forall (fun ev => before_end ev = true) evs ->
  requested (run st evs) = true /\
  promise (run st evs) = promise st /\
  playing (run st evs) = playing st /\
  frameCount (run st evs) = (frameCount st + length evs)%nat /\
  (truthy_opt (startTime st) = true ->
   startTime (run st evs) = startTime st) /\
  (evs = [] -> startTime (run st evs) = startTime st).
Proof.
  revert st; induction evs as [|ev evs IH]; intros st Hreq Hevs; simpl.
  - rewrite Nat.add_0_r. auto 10.
  - rewrite Hreq. inversion Hevs as [|? ? Hev Hrest]; subst.
    assert (E : requested (countFrame st ev) = true /\
                promise (countFrame st ev) = promise st /\
                playing (countFrame st ev) = playing st /\
                frameCount (countFrame st ev) = S (frameCount st)).
    { unfold Analyze.countFrame. rewrite Hev. simpl. auto. }
    destruct E as (E1 & E2 & E3 & E4).
    destruct (IH (countFrame st ev) E1 Hrest) as (H1 & H2 & H3 & H4 & H5 & _).
    split; [exact H1|]. split; [congruence|]. split; [congruence|].
    split; [rewrite H4, E4; lia|]. split; [|discriminate].
    intros Ht. rewrite H5; rewrite countFrame_keeps_start; auto.
Qed.

(** The frame that is not before video.duration settles the promise. *)
Lemma countFrame_resolves (st : State) (ev : Presented) :
  promise st = Pending ->
  before_end ev = false ->
  promise (countFrame st ev)
  = Resolved
      {| totalFrames := of_nat (S (frameCount st));
         duration :=
           (mediaTime (frameMetadata ev)
            - (if truthy_opt (startTime (countFrame st ev))
               then to_number (startTime (countFrame st ev))
               else of_Z 0))%js;
         fps :=
           (of_nat (S (frameCount st))
            / (mediaTime (frameMetadata ev)
               - (if truthy_opt (startTime (countFrame st ev))
                  then to_number (startTime (countFrame st ev))
                  else of_Z 0)))%js |} /\
  requested (countFrame st ev) = false.
Proof.
  intros Hp Hev. unfold Analyze.countFrame. rewrite Hev. simpl.
  now rewrite Hp.
Qed.

Lemma count_progress (evs : list Presented) (st : State) :
  (if onProgress then length (reported st) = frameCount st
   else reported st = []) ->
  if onProgress then length (reported (run st evs)) = frameCount (run st evs)
  else reported (run st evs) = [].
Proof.
  revert st; induction evs as [|ev evs IH]; intros st H; simpl; [exact H|].
  destruct (requested st); [|exact H].
  apply IH. unfold Analyze.countFrame, report.
  destruct onProgress; destruct (_ <? _)%js; simpl; auto;
    rewrite length_app, H; simpl; lia.
Qed.

End AnalyzeMore.

Lemma analyze_run_app
    (video : Video) (onProgress : bool) (evs1 evs2 : list Presented)
    (st : Analyze.State) :
  Analyze.run video onProgress st (evs1 ++ evs2)
  = Analyze.run video onProgress (Analyze.run video onProgress st evs1) evs2.
Proof.
  revert st; induction evs1 as [|ev evs1 IH]; intros st; simpl.
  - reflexivity.
  - destruct (Analyze.requested st) eqn:E.
    + apply IH.
    + symmetry. now apply analyze_run_stopped.
Qed.

Lemma analyze_execute_playing (video : Video) :
  truthy_opt (video_duration video) = true ->
  Analyze.execute video true None
  = {| Analyze.frameCount := 0; Analyze.startTime := None;
       Analyze.lastTime := None; Analyze.requested := true;
       Analyze.playing := true; Analyze.currentTime := Some (of_Z 0);
       Analyze.promise := Pending; Analyze.reported := [] |}.
Proof.
  intros H. unfold Analyze.execute. now rewrite H.
Qed.

(** X12: with a valid duration, frame callbacks and playback that starts,
    analyzeVideoFrames counts every presented frame up to and including the
    first one whose mediaTime is not below video.duration, and resolves
    there: totalFrames is the position of that frame, the video is paused
    and rewound to 0, and later frames are not counted. *)
Theorem analyzeVideoFrames_counts_to_end
    (video : Video) (onProgress : bool)
    (evs : list Presented) (ev : Presented) (later : list Presented) :
  truthy_opt (video_duration video) = true ->
  Forall (fun ev => (mediaTime (frameMetadata ev)
                     <? to_number (video_duration video))%js = true) evs ->
  (mediaTime (frameMetadata ev) <? to_number (video_duration video))%js
  = false ->
  let r :=
    Analyze.analyzeVideoFrames video onProgress true None
      (evs ++ ev :: later) in
  (exists a,
     Analyze.promise r = Resolved a /\
     Analyze.totalFrames a = of_nat (S (length evs))) /\
  Analyze.frameCount r = S (length evs) /\
  Analyze.playing r = false /\
  Analyze.currentTime r = Some (of_Z 0).
Proof.
  intros Hd Hevs Hev r. subst r.
  unfold Analyze.analyzeVideoFrames.
  rewrite analyze_run_app, (analyze_execute_playing video Hd).
  match goal with |- context [Analyze.run _ _ ?s evs] =>
    set (st0 := s) end.
  destruct (run_counting video onProgress evs st0 eq_refl Hevs)
    as (Hreq & Hp & _ & Hc & _).
  simpl in Hp, Hc.
  set (st := Analyze.run video onProgress st0 evs) in *.
  simpl. rewrite Hreq.
  destruct (countFrame_resolves video onProgress st ev Hp Hev) as [Hres Hstop].
  rewrite analyze_run_stopped by exact Hstop.
  split; [eexists; split; [exact Hres|]; simpl; now rewrite Hc|].
  unfold Analyze.countFrame. rewrite Hev. simpl. now rewrite Hc.
Qed.

Lemma analyzeVideoFrames_counts_to_end_witness :
  let frame (m : Q) (k : Z) :=
    mkPresented (of_Z 0)
      (mkMetadata (of_Z 0) (of_Z 0) (of_Z 640) (of_Z 360) (Fin m) (of_Z k)
         (of_Z 0))
      (fun _ => "data:image/jpeg") in
  let r :=
    Analyze.analyzeVideoFrames (mkVideo (Some (of_Z 1))) true true None
      ([frame (1 # 4)%Q 1; frame (1 # 2)%Q 2] ++ frame 1%Q 3 :: [frame 2%Q 4]) in
  (exists a,
     Analyze.promise r = Resolved a /\ Analyze.totalFrames a = of_nat 3) /\
  Analyze.frameCount r = 3%nat /\
  Analyze.playing r = false /\
  Analyze.currentTime r = Some (of_Z 0).
Proof.
  intros frame r.
  apply (analyzeVideoFrames_counts_to_end (mkVideo (Some (of_Z 1))) true
           [frame (1 # 4)%Q 1; frame (1 # 2)%Q 2] (frame 1%Q 3) [frame 2%Q 4]).
  - reflexivity.
  - repeat constructor.
  - reflexivity.
Defined.



(** X14: with a valid duration and frame callbacks, when video.play()
    rejects, analyzeVideoFrames rejects with the reason of that rejection,
    whatever frames are presented afterwards. *)
Theorem analyzeVideoFrames_play_rejected
    (video : Video) (onProgress : bool) (reason : Thrown)
    (evs : list Presented) :
  truthy_opt (video_duration video) = true ->
  Analyze.promise
    (Analyze.analyzeVideoFrames video onProgress true (Some reason) evs)
  = Rejected reason.
Proof.
  intros Hd. unfold Analyze.analyzeVideoFrames.
  rewrite analyze_run_settled; unfold Analyze.execute; rewrite Hd; simpl;
    [reflexivity | discriminate].
Qed.

Lemma analyzeVideoFrames_play_rejected_witness :
  Analyze.promise
    (Analyze.analyzeVideoFrames (mkVideo (Some (of_Z 1))) true true
       (Some (ErrorObject "NotAllowedError"))
       [mkPresented (of_Z 0)
          (mkMetadata (of_Z 0) (of_Z 0) (of_Z 640) (of_Z 360) (of_Z 2)
             (of_Z 1) (of_Z 0))
          (fun _ => "data:image/jpeg")])
  = Rejected (ErrorObject "NotAllowedError").
Proof.
  apply (analyzeVideoFrames_play_rejected (mkVideo (Some (of_Z 1))) true).
  reflexivity.
Defined.

(** The analysis resolved at the first frame not below video.duration, in
    terms of the startTime the loop ends with. *)
Lemma analyze_resolved_at
    (video : Video) (onProgress : bool)
    (evs : list Presented) (ev : Presented) (later : list Presented) :
  truthy_opt (video_duration video) = true ->
  Forall (fun ev => (mediaTime (frameMetadata ev)
                     <? to_number (video_duration video))%js = true) evs ->
  (mediaTime (frameMetadata ev) <? to_number (video_duration video))%js
  = false ->
  let r :=
    Analyze.analyzeVideoFrames video onProgress true None
      (evs ++ ev :: later) in
  let first :=
    if truthy_opt (Analyze.startTime r) then to_number (Analyze.startTime r)
    else of_Z 0 in
  Analyze.promise r
  = Resolved
      {| Analyze.totalFrames := of_nat (S (length evs));
         Analyze.duration := (mediaTime (frameMetadata ev) - first)%js;
         Analyze.fps :=
           (of_nat (S (length evs))
            / (mediaTime (frameMetadata ev) - first))%js |} /\
  (truthy (mediaTime (frameMetadata (hd ev evs))) = true ->
   Analyze.startTime r = Some (mediaTime (frameMetadata (hd ev evs)))).
Proof.
  intros Hd Hevs Hev r first. subst first r.
  unfold Analyze.analyzeVideoFrames.
  rewrite analyze_run_app, (analyze_execute_playing video Hd).
  match goal with |- context [Analyze.run _ _ ?s evs] =>
    set (st0 := s) end.
  destruct (run_counting video onProgress evs st0 eq_refl Hevs)
    as (Hreq & Hp & _ & Hc & Hkeep & Hnil).
  simpl in Hp, Hc.
  assert (Hstart :
            truthy (mediaTime (frameMetadata (hd ev evs))) = true ->
            Analyze.startTime
              (Analyze.countFrame video onProgress
                 (Analyze.run video onProgress st0 evs) ev)
            = Some (mediaTime (frameMetadata (hd ev evs)))).
  { intros Ht. destruct evs as [|f0 evs'].
    - simpl. now apply countFrame_sets_start.
    - simpl in Ht |- *.
      inversion Hevs as [|? ? Hf0 Hrest]; subst.
      assert (E0 : Analyze.requested
                     (Analyze.countFrame video onProgress st0 f0) = true).
      { unfold Analyze.countFrame. now rewrite Hf0. }
      assert (S0 : Analyze.startTime
                     (Analyze.countFrame video onProgress st0 f0)
                   = Some (mediaTime (frameMetadata f0)))
        by now apply countFrame_sets_start.
      destruct (run_counting video onProgress evs'
                  (Analyze.countFrame video onProgress st0 f0) E0 Hrest)
        as (_ & _ & _ & _ & Hk & _).
      rewrite countFrame_keeps_start; rewrite Hk; rewrite ?S0; auto. }
  set (st := Analyze.run video onProgress st0 evs) in *.
  simpl. rewrite Hreq.
  destruct (countFrame_resolves video onProgress st ev Hp Hev) as [Hres Hstop].
  rewrite analyze_run_stopped by exact Hstop.
  rewrite Hres, Hc. simpl. split; [reflexivity|exact Hstart].
Qed.





(** X17: analyzeVideoFrames calls onProgress exactly once for each frame it
    counts, and reports nothing when no callback is given. *)
Theorem analyzeVideoFrames_progress_calls
    (video : Video) (onProgress supported : bool)
    (playFailure : option Thrown) (evs : list Presented) :
  let r :=
    Analyze.analyzeVideoFrames video onProgress supported playFailure evs in
  if onProgress
  then length (Analyze.reported r) = Analyze.frameCount r
  else Analyze.reported r = [].
Proof.
  apply count_progress.
  unfold Analyze.execute.
  destruct onProgress; destruct (negb _); try destruct supported; reflexivity.
Qed.

(** X18: in a browser without requestVideoFrameCallback, for a valid
    duration, analyzeVideoFrames does not play the video, counts and
    reports nothing, and resolves at once with the estimate for 30 frames
    per second: totalFrames = round(duration * 30), the product rounded to
    a double before Math.round, the duration of the video and fps = 30,
    whatever the browser presents. *)
Theorem analyzeVideoFrames_estimate
    (video : Video) (onProgress : bool) (playFailure : option Thrown)
    (evs : list Presented) :
  truthy_opt (video_duration video) = true ->
  Analyze.analyzeVideoFrames video onProgress false playFailure evs
  = {| Analyze.frameCount := 0;
       Analyze.startTime := None;
       Analyze.lastTime := None;
       Analyze.requested := false;
       Analyze.playing := false;
       Analyze.currentTime := None;
       Analyze.promise :=
         Resolved
           {| Analyze.totalFrames :=
                Js.round (to_number (video_duration video) * of_Z 30)%f64;
              Analyze.duration := to_number (video_duration video);
              Analyze.fps := of_Z 30 |};
       Analyze.reported := [] |}.
Proof.
  intros Hd. unfold Analyze.analyzeVideoFrames, Analyze.execute.
  rewrite Hd; simpl. now rewrite analyze_run_stopped.
Qed.

(** At a duration of 0.35 seconds the product 0.35 * 30 rounds to the
    double 10.5, and the estimate is 11 frames. *)
Lemma analyzeVideoFrames_estimate_witness :
  Analyze.promise
    (Analyze.analyzeVideoFrames (mkVideo (Some (Js64.double (35 # 100)))) true
       false None [])
  = Resolved
      {| Analyze.totalFrames := of_Z 11;
         Analyze.duration := Js64.double (35 # 100);
         Analyze.fps := of_Z 30 |}.
Proof.
  assert (Hd : truthy_opt (video_duration (mkVideo (Some (Js64.double (35 # 100)))))
               = true) by (vm_compute; reflexivity).
  rewrite (analyzeVideoFrames_estimate (mkVideo (Some (Js64.double (35 # 100))))
             true None [] Hd).
  vm_compute. reflexivity.
Defined.

Lemma analyzeVideoFrames_fps_witness :
  let frame (m : Q) (k : Z) :=
    mkPresented (of_Z 0)
      (mkMetadata (of_Z 0) (of_Z 0) (of_Z 640) (of_Z 360) (Fin m) (of_Z k)
         (of_Z 0))
      (fun _ => "data:image/jpeg") in
  (of_Z 6 = of_Z 3 / Fin (1 # 2))%js.
Proof.
  intros frame.
  exact (analyzeVideoFrames_fps (mkVideo (Some (of_Z 1))) false None
           [frame 0%Q 1; frame (1 # 2)%Q 2; frame 1%Q 3]
           {| Analyze.totalFrames := of_Z 3;
              Analyze.duration := Fin (1 # 2);
              Analyze.fps := of_Z 6 |}
           eq_refl).
Defined.

(** ** The handlers of the page *)

Lemma extractFrames_resolved_bound
    (startTime endTime : number) (options : ExtractFrames.Options)
    (canvas : Canvas) (evs : list ExtractFrames.Seeked)
    (mf : nat) (frames : list FrameInfo) :
  ExtractFrames.maxFrames_ options = of_nat mf ->
  ExtractFrames.extractFrames startTime endTime options canvas evs
  = Resolved frames ->
  (length frames <= mf)%nat.
Proof.
  intros Hmf. unfold ExtractFrames.extractFrames.
  destruct (negb (has2d canvas)); [intros [= <-]; simpl; lia|].
  intros Hres.
  destruct (seek_inv_run startTime endTime options evs
              (ExtractFrames.start startTime)) as [Hinv _];
    [now left | apply seek_inv_start |].
  pose proof (seek_inv_bound _ _ _ mf _ Hmf Hinv (ex_intro _ _ Hres)) as Hb.
  destruct Hinv as (_ & _ & Hfin). now destruct (Hfin _ Hres) as [-> _].
Qed.

Lemma actual_count_bound
    (startTime endTime : number) (options : ExtractActualFrames.Options)
    (mf : nat) (evs : list Presented) (st : ExtractActualFrames.State) :
  ExtractActualFrames.maxFrames_ options = of_nat mf ->
  (length (ExtractActualFrames.frames st) <= mf)%nat ->
  length (ExtractActualFrames.frames st) = ExtractActualFrames.frameCount st ->
  (length
     (ExtractActualFrames.frames
        (ExtractActualFrames.run startTime endTime options st evs)) <= mf)%nat.
Proof.
  intros Hmf. revert st; induction evs as [|ev evs IH]; intros st Hle Hc; simpl.
  - exact Hle.
  - destruct (ExtractActualFrames.requested st); [|exact Hle].
    destruct (processFrame_frames startTime endTime options st ev)
      as [[E1 E2]|(_ & _ & Hfull & E2 & f & _ & E1)].
    + apply IH; congruence.
    + rewrite Hmf in Hfull. apply geb_of_Z_false in Hfull.
      apply IH; rewrite E1, ?E2, length_app; simpl; lia.
Qed.

Lemma setExtractionProgress_fold (l : list number) (st : Page.PageState) :
  let st' := fold_left (fun s p => Page.setExtractionProgress p s) l st in
  st' = Page.setExtractionProgress (last l (Page.extractionProgress st)) st.
Proof.
  revert st; induction l as [|p l IH] using rev_ind; intros st; simpl.
  - now destruct st.
  - rewrite fold_left_app, last_last. simpl. rewrite IH. reflexivity.
Qed.

(** X19: handleExtractFrames changes nothing of the page state but
    extractedFrames, and extractedFrames is either left as it was or
    replaced by an array of at most 100 frames. *)
Theorem handleExtractFrames_result (b : Page.Browser) (st : Page.PageState) :
  let st' := fst (Page.handleExtractFrames b st) in
  st' = Page.setExtractedFrames (Page.extractedFrames st') st /\
  (Page.extractedFrames st' = Page.extractedFrames st \/
   (length (Page.extractedFrames st') <= 100)%nat).
Proof.
  unfold Page.handleExtractFrames.
  assert (Hsame : st = Page.setExtractedFrames (Page.extractedFrames st) st)
    by now destruct st.
  destruct (Page.video b); [|simpl; auto].
  destruct (Page.canvas b) as [canvas|]; [|simpl; auto].
  destruct (_ <=? _)%js; [simpl; auto|].
  match goal with |- context [ExtractFrames.extractFrames ?s ?e ?o ?c ?l] =>
    destruct (ExtractFrames.extractFrames s e o c l) as [|frames|] eqn:E
  end; simpl; auto.
  split; [reflexivity|]. right.
  apply (extractFrames_resolved_bound _ _ _ _ _ 100 frames) in E;
    [exact E|reflexivity].
Qed.

(** X20: handleExtractActualFrames leaves the captured and interval arrays,
    the times, the interval, the quality and the analysis untouched; with a
    video and a canvas and endTime not <= startTime, isExtracting ends
    false exactly when the promise of extractActualFrames has resolved, and
    then actualFrames holds the resolved array, of at most 100 frames, and
    extractionProgress the last value reported (0 when nothing was). *)
Theorem handleExtractActualFrames_result
    (b : Page.Browser) (st : Page.PageState) (v : Video) (c : Canvas) :
  Page.video b = Some v -> Page.canvas b = Some c ->
  (timeToSeconds (Page.endTime st) <=? timeToSeconds (Page.startTime st))%js
  = false ->
  let r :=
    ExtractActualFrames.extractActualFrames
      (timeToSeconds (Page.startTime st)) (timeToSeconds (Page.endTime st))
      {| ExtractActualFrames.quality := Some (Page.quality st / of_Z 100)%js;
         ExtractActualFrames.maxFrames := Some (of_Z 100);
         ExtractActualFrames.onProgress := true |}
      c (Page.supportsFrameCallback b) (Page.presented b) in
  let st' := fst (Page.handleExtractActualFrames b st) in
  Page.extractionProgress st' = last (ExtractActualFrames.reported r) (of_Z 0) /\
  match ExtractActualFrames.promise r with
  | Resolved frames =>
      Page.isExtracting st' = false /\
      Page.actualFrames st' = frames /\
      (length frames <= 100)%nat
  | _ =>
      Page.isExtracting st' = true /\
      Page.actualFrames st' = Page.actualFrames st
  end /\
  Page.extractedFrames st' = Page.extractedFrames st /\
  Page.capturedFrames st' = Page.capturedFrames st /\
  Page.startTime st' = Page.startTime st /\
  Page.endTime st' = Page.endTime st /\
  Page.frameInterval st' = Page.frameInterval st /\
  Page.quality st' = Page.quality st /\
  Page.videoAnalysis st' = Page.videoAnalysis st /\
  Page.analysisError st' = Page.analysisError st.
Proof.
  intros Hv Hc Hrange r st'. subst st'.
  unfold Page.handleExtractActualFrames. rewrite Hv, Hc, Hrange.
  cbv zeta. simpl Page.quality. fold r.
  rewrite setExtractionProgress_fold.
  assert (Hbound : forall frames,
            ExtractActualFrames.promise r = Resolved frames ->
            (length frames <= 100)%nat).
  { intros frames Hres.
    assert (Hinv : (length (ExtractActualFrames.frames r) <= 100)%nat).
    { apply actual_count_bound; [reflexivity| |].
      all: unfold ExtractActualFrames.execute;
        destruct (negb _); [|destruct (Page.supportsFrameCallback b)];
        simpl; lia. }
    assert (Hfr : frames = ExtractActualFrames.frames r \/ frames = []).
    { unfold r in *. clear Hinv.
      unfold ExtractActualFrames.extractActualFrames in *.
      destruct (Page.supportsFrameCallback b).
      - destruct (has2d c) eqn:Hctx.
        + destruct (run_state
                      (timeToSeconds (Page.startTime st))
                      (timeToSeconds (Page.endTime st))
                      {| ExtractActualFrames.quality :=
                           Some (Page.quality st / of_Z 100)%js;
                         ExtractActualFrames.maxFrames := Some (of_Z 100);
                         ExtractActualFrames.onProgress := true |}
                      (Page.presented b)
                      (ExtractActualFrames.execute c true)
                      (or_introl (execute_running c Hctx)))
            as [(_ & _ & Hp)|(_ & _ & Hp)]; rewrite Hp in Hres.
          * discriminate.
          * left. now injection Hres.
        + right. unfold ExtractActualFrames.execute in Hres.
          rewrite Hctx in Hres. simpl in Hres.
          rewrite actual_run_stopped in Hres by reflexivity.
          simpl in Hres. now injection Hres.
      - right. unfold ExtractActualFrames.execute in Hres.
        destruct (negb (has2d c)); simpl in Hres;
          rewrite actual_run_stopped in Hres by reflexivity;
          simpl in Hres; now injection Hres. }
    destruct Hfr as [->| ->]; [exact Hinv|simpl; lia]. }
  destruct (ExtractActualFrames.promise r) as [|frames|e] eqn:Hp; simpl;
    repeat split; auto.
Qed.

Lemma handleExtractActualFrames_result_witness :
  let frame (m : Q) (k : Z) :=
    mkPresented (of_Z 0)
      (mkMetadata (of_Z 0) (of_Z 0) (of_Z 640) (of_Z 360) (Fin m) (of_Z k)
         (of_Z 0))
      (fun _ => "data:image/jpeg") in
  let b :=
    Page.mkBrowser (Some (mkVideo (Some (of_Z 10)))) (Some (mkCanvas true))
      true [] [frame (1 # 2)%Q 1; frame 1%Q 2; frame 2%Q 3] None in
  let st :=
    Page.mkPage [] [] [] Page.zeroTime (mkTime (of_Z 0) (of_Z 0) (of_Z 1))
      (of_Z 100) (of_Z 92) (of_Z 0) false None false (of_Z 0) None in
  let st' := fst (Page.handleExtractActualFrames b st) in
  Page.isExtracting st' = false /\
  (length (Page.actualFrames st') <= 100)%nat.
Proof.
  intros frame b st st'.
  pose proof (handleExtractActualFrames_result b st (mkVideo (Some (of_Z 10)))
                (mkCanvas true) eq_refl eq_refl eq_refl) as H.
  cbv zeta in H. destruct H as (_ & Hres & _).
  change (Page.isExtracting st' = false /\
          Page.actualFrames st' = Page.actualFrames st' /\
          (length (Page.actualFrames st') <= 100)%nat) in Hres.
  destruct Hres as (H1 & _ & H3). exact (conj H1 H3).
Defined.

(** The executor of analyzeVideoFrames resolves only on the fallback path,
    where no callback is registered. *)
Lemma analyze_execute_resolved
    (video : Video) (supported : bool) (playFailure : option Thrown)
    (a : Analyze.Analysis) :
  Analyze.promise (Analyze.execute video supported playFailure) = Resolved a ->
  Analyze.requested (Analyze.execute video supported playFailure) = false.
Proof.
  unfold Analyze.execute.
  destruct (negb _); [reflexivity|].
  destruct supported; [|reflexivity].
  destruct playFailure; discriminate.
Qed.

(** countFrame resolves and never rejects: a promise that is pending when
    the frames start to arrive is not rejected by them. *)
Lemma analyze_run_not_rejected
    (video : Video) (onProgress : bool) (evs : list Presented)
    (st : Analyze.State) (e : Thrown) :
  Analyze.promise st = Pending ->
  Analyze.promise (Analyze.run video onProgress st evs) <> Rejected e.
Proof.
  revert st; induction evs as [|ev evs IH]; intros st Hp; simpl.
  - rewrite Hp. discriminate.
  - destruct (Analyze.requested st); [|rewrite Hp; discriminate].
    destruct (Analyze.promise (Analyze.countFrame video onProgress st ev))
      as [|a|e'] eqn:E.
    + now apply IH.
    + rewrite analyze_run_settled by (rewrite E; discriminate).
      rewrite E. discriminate.
    + exfalso. revert E. unfold Analyze.countFrame.
      destruct (_ <? _)%js; simpl; rewrite Hp; discriminate.
Qed.

(** X21: with a video element, handleAnalyzeVideo ends in one of three
    ways, by the promise of analyzeVideoFrames.  Resolved: videoAnalysis
    holds the analysis, analysisError is null, isAnalyzing is false and
    analysisProgress is 0.  Rejected: videoAnalysis is null, analysisError
    holds the message of the Error, or 'Unknown error occurred' for any
    other reason, and isAnalyzing is false; the promise was rejected before
    a frame was counted, so the progress reported by the frames counted
    afterwards reaches the page after the reset to 0, and analysisProgress
    is the last value reported, or 0 when nothing was.  Pending: both are
    null, isAnalyzing stays true and analysisProgress is the last value
    reported.  The three frame arrays are untouched. *)
Theorem handleAnalyzeVideo_result
    (b : Page.Browser) (st : Page.PageState) (v : Video) :
  Page.video b = Some v ->
  let r :=
    Analyze.analyzeVideoFrames v true (Page.supportsFrameCallback b)
      (Page.playFailure b) (Page.presented b) in
  let st' := fst (Page.handleAnalyzeVideo b st) in
  match Analyze.promise r with
  | Resolved analysis =>
      Page.videoAnalysis st' = Some analysis /\
      Page.analysisError st' = None /\
      Page.isAnalyzing st' = false /\
      Page.analysisProgress st' = of_Z 0
  | Rejected reason =>
      Page.videoAnalysis st' = None /\
      Page.analysisError st'
      = Some match reason with
             | ErrorObject message => message
             | OtherValue => "Unknown error occurred"
             end /\
      Page.isAnalyzing st' = false /\
      Page.analysisProgress st' = last (Analyze.reported r) (of_Z 0)
  | Pending =>
      Page.videoAnalysis st' = None /\
      Page.analysisError st' = None /\
      Page.isAnalyzing st' = true /\
      Page.analysisProgress st' = last (Analyze.reported r) (of_Z 0)
  end /\
  Page.extractedFrames st' = Page.extractedFrames st /\
  Page.actualFrames st' = Page.actualFrames st /\
  Page.capturedFrames st' = Page.capturedFrames st.
Proof.
  intros Hv r st'. subst st'.
  unfold Page.handleAnalyzeVideo. rewrite Hv. cbv zeta.
  unfold Analyze.analyzeVideoFrames in r.
  set (r0 := Analyze.execute v (Page.supportsFrameCallback b)
               (Page.playFailure b)) in *.
  fold r.
  destruct (Analyze.promise r0) as [|a|e] eqn:E0.
  - destruct (Analyze.promise r) as [|analysis|reason] eqn:Hp; simpl;
      rewrite setAnalysisProgress_fold.
    + repeat split; reflexivity.
    + repeat split; reflexivity.
    + exfalso. exact (analyze_run_not_rejected _ _ _ _ _ E0 Hp).
  - assert (Hr : r = r0).
    { apply analyze_run_stopped.
      exact (analyze_execute_resolved _ _ _ _ E0). }
    rewrite Hr, E0.
    assert (Hrep : Analyze.reported r0 = []) by apply execute_reported.
    rewrite Hrep. simpl. repeat split; reflexivity.
  - assert (Hp : Analyze.promise r = Rejected e).
    { unfold r. rewrite analyze_run_settled by (rewrite E0; discriminate).
      exact E0. }
    rewrite Hp. simpl. rewrite setAnalysisProgress_fold.
    repeat split; reflexivity.
Qed.

(** A video of ten seconds whose playback is refused, and of which the
    frame at five seconds is presented all the same: the page shows the
    error, and the progress 50 reported after the reset. *)
Lemma handleAnalyzeVideo_result_witness :
  let b :=
    Page.mkBrowser (Some (mkVideo (Some (of_Z 10)))) (Some (mkCanvas true))
      true []
      [mkPresented (of_Z 0)
         (mkMetadata (of_Z 0) (of_Z 0) (of_Z 640) (of_Z 360) (of_Z 5) (of_Z 1)
            (of_Z 0))
         (fun _ => "data:image/jpeg")]
      (Some OtherValue) in
  let st' := fst (Page.handleAnalyzeVideo b Page.initial) in
  Page.videoAnalysis st' = None /\
  Page.analysisError st' = Some "Unknown error occurred" /\
  Page.isAnalyzing st' = false /\
  (Page.analysisProgress st' == of_Z 50)%js.
Proof.
  intros b st'.
  destruct (handleAnalyzeVideo_result b Page.initial
              (mkVideo (Some (of_Z 10))) eq_refl) as [H _].
  cbv zeta in H.
  change (Page.videoAnalysis st' = None /\
          Page.analysisError st' = Some "Unknown error occurred" /\
          Page.isAnalyzing st' = false /\
          Page.analysisProgress st'
          = last
              (Analyze.reported
                 (Analyze.analyzeVideoFrames (mkVideo (Some (of_Z 10))) true
                    (Page.supportsFrameCallback b) (Page.playFailure b)
                    (Page.presented b)))
              (of_Z 0)) in H.
  destruct H as (H1 & H2 & H3 & H4).
  split; [exact H1|]. split; [exact H2|]. split; [exact H3|].
  rewrite H4. vm_compute. reflexivity.
Defined.

(** ** TimeInput and the times the helpers are called with *)

Lemma leb_true_not_nan (x y : number) :
  (x <=? y)%js = true -> is_nan x = false /\ is_nan y = false.
Proof. destruct x, y; try discriminate; split; reflexivity. Qed.

Lemma or_else_not_nan (x : number) :
  is_nan (JsMore.or_else x (of_Z 0)) = false.
Proof. unfold JsMore.or_else. now destruct x; simpl; try destruct (negb _). Qed.

Lemma max_lower (x : number) :
  is_nan x = false -> (of_Z 0 <=? JsMore.max (of_Z 0) x)%js = true.
Proof.
  intros Hx. unfold JsMore.max, leb.
  destruct (cmp (of_Z 0) x) as [[]|] eqn:E.
  - reflexivity.
  - now rewrite E.
  - reflexivity.
  - destruct x; discriminate.
Qed.

Lemma min_lower (z a b : number) :
  (z <=? a)%js = true -> (z <=? b)%js = true -> (z <=? Js.min a b)%js = true.
Proof.
  intros Ha Hb. unfold Js.min.
  destruct (cmp a b) as [[]|] eqn:E; try assumption.
  destruct (leb_true_not_nan _ _ Ha) as [_ Hna].
  destruct (leb_true_not_nan _ _ Hb) as [_ Hnb].
  destruct a, b; discriminate.
Qed.

(** The value that handleChange stores in a field lies between 0 and the
    maximum of the field. *)
Lemma clamp_bounds (parsed maxValue : number) :
  (of_Z 0 <=? maxValue)%js = true ->
  let v :=
    Js.min (JsMore.max (of_Z 0) (JsMore.or_else parsed (of_Z 0))) maxValue in
  (of_Z 0 <=? v)%js = true /\ (v <=? maxValue)%js = true.
Proof.
  intros HM v.
  assert (H0 : (of_Z 0 <=? v)%js = true).
  { apply min_lower; [|exact HM]. apply max_lower, or_else_not_nan. }
  split; [exact H0|].
  apply min_leb_r. now destruct (leb_true_not_nan _ _ H0).
Qed.

Lemma handleChange_in_bounds
    (value : TimeValue) (field : TimeInput.Field) (parsed : number) :
  TimeInput.in_bounds value ->
  TimeInput.in_bounds (TimeInput.handleChange value field parsed).
Proof.
  intros (Hh & Hm0 & Hm1 & Hs0 & Hs1).
  unfold TimeInput.handleChange, TimeInput.in_bounds.
  destruct field; simpl.
  - destruct (clamp_bounds parsed PInf eq_refl) as [H0 _]. auto 10.
  - destruct (clamp_bounds parsed (of_Z 59) eq_refl) as [H0 H1]. auto 10.
  - destruct (clamp_bounds parsed (of_Z 59) eq_refl) as [H0 H1]. auto 10.
Qed.

Lemma changes_in_bounds (cs : list PageInputs.Change) (st : Page.PageState) :
  TimeInput.in_bounds (Page.startTime st) ->
  TimeInput.in_bounds (Page.endTime st) ->
  TimeInput.in_bounds (Page.startTime (PageInputs.changes cs st)) /\
  TimeInput.in_bounds (Page.endTime (PageInputs.changes cs st)).
Proof.
  unfold PageInputs.changes.
  revert st; induction cs as [|c cs IH]; intros st Hs He; simpl; [auto|].
  apply IH; unfold PageInputs.change; destruct (PageInputs.input c); simpl;
    auto using handleChange_in_bounds.
Qed.

(** The seconds of a time within bounds are a number from 0. *)
Lemma timeToSeconds_in_bounds (value : TimeValue) :
  TimeInput.in_bounds value -> (of_Z 0 <=? timeToSeconds value)%js = true.
Proof.
  intros (Hh & Hm0 & Hm1 & Hs0 & Hs1). unfold timeToSeconds.
  destruct value as [h m s]. simpl in *.
  destruct m as [| | |m]; try discriminate.
  destruct s as [| | |s]; try discriminate.
  destruct h as [| | |h]; try discriminate; [reflexivity|].
  apply leb_Fin in Hh, Hm0, Hs0. simpl. apply leb_Fin.
  change (inject_Z 0) with 0%Q in *.
  change (inject_Z 3600) with 3600%Q. change (inject_Z 60) with 60%Q.
  lra.
Qed.

(** X22: a change in a TimeInput keeps a time within bounds: whatever
    parseInt returns (NaN and negative numbers included), hours stay a
    number from 0 and minutes and seconds numbers from 0 to 59, and the
    fields that are not edited keep their values. *)
Theorem handleChange_clamps
    (value : TimeValue) (field : TimeInput.Field) (parsed : number) :
  TimeInput.in_bounds value ->
  let value' := TimeInput.handleChange value field parsed in
  TimeInput.in_bounds value' /\
  (forall other : TimeInput.Field,
     other <> field ->
     TimeInput.field_of value' other = TimeInput.field_of value other) /\
  TimeInput.field_of value' field
  = Js.min (JsMore.max (of_Z 0) (JsMore.or_else parsed (of_Z 0)))
      match field with TimeInput.Hours => PInf | _ => of_Z 59 end.
Proof.
  intros Hb value'. split; [now apply handleChange_in_bounds|].
  split.
  - intros other Hne. destruct field, other; try reflexivity; contradiction.
  - now destruct field.
Qed.

Lemma handleChange_clamps_witness :
  TimeInput.in_bounds
    (TimeInput.handleChange (mkTime (of_Z 1) (of_Z 30) (of_Z 0))
       TimeInput.Minutes (of_Z 75)) /\
  TimeInput.field_of
    (TimeInput.handleChange (mkTime (of_Z 1) (of_Z 30) (of_Z 0))
       TimeInput.Minutes (of_Z 75)) TimeInput.Minutes
  = of_Z 59.
Proof.
  destruct (handleChange_clamps (mkTime (of_Z 1) (of_Z 30) (of_Z 0))
              TimeInput.Minutes (of_Z 75)) as (H1 & _ & H3).
  - repeat split.
  - split; [exact H1|exact H3].
Defined.

(** X23: on a page whose times were only edited through the two TimeInputs,
    with a video and a canvas in the document, handleExtractFrames and
    handleExtractActualFrames each either show the alert or call their
    helper with 0 <= startTime < endTime: the helpers are never called with
    NaN, a negative time or an empty range. *)
Theorem handlers_call_with_valid_range
    (cs : list PageInputs.Change) (b : Page.Browser) (v : Video) (c : Canvas) :
  Page.video b = Some v -> Page.canvas b = Some c ->
  let st := PageInputs.changes cs Page.initial in
  (snd (Page.handleExtractFrames b st)
   = [Page.Alert "End time must be greater than start time"] \/
   exists s e o,
     snd (Page.handleExtractFrames b st) = [Page.CallExtractFrames s e o] /\
     (of_Z 0 <=? s)%js = true /\ (s <? e)%js = true) /\
  (snd (Page.handleExtractActualFrames b st)
   = [Page.Alert "End time must be greater than start time"] \/
   exists s e o,
     snd (Page.handleExtractActualFrames b st)
     = [Page.CallExtractActualFrames s e o] /\
     (of_Z 0 <=? s)%js = true /\ (s <? e)%js = true).
Proof.
  intros Hv Hc st.
  destruct (changes_in_bounds cs Page.initial) as [Hs He];
    [repeat split | repeat split |].
  fold st in Hs, He.
  apply timeToSeconds_in_bounds in Hs, He.
  destruct (leb_true_not_nan _ _ Hs) as [_ Hns].
  destruct (leb_true_not_nan _ _ He) as [_ Hne].
  unfold Page.handleExtractFrames, Page.handleExtractActualFrames.
  rewrite Hv, Hc.
  destruct (timeToSeconds (Page.endTime st)
            <=? timeToSeconds (Page.startTime st))%js eqn:Hguard.
  - split; left; reflexivity.
  - pose proof (leb_false_ltb _ _ Hne Hns Hguard) as Hlt.
    split; right.
    + do 3 eexists. split; [|split; [exact Hs|exact Hlt]].
      now destruct (ExtractFrames.extractFrames _ _ _ _ _).
    + do 3 eexists. split; [|split; [exact Hs|exact Hlt]].
      cbv zeta.
      now destruct (ExtractActualFrames.promise _).
Qed.

Lemma handlers_call_with_valid_range_witness :
  let b :=
    Page.mkBrowser (Some (mkVideo (Some (of_Z 10)))) (Some (mkCanvas true))
      true [] [] None in
  let st :=
    PageInputs.changes
      [PageInputs.mkChange PageInputs.EndTime TimeInput.Seconds (of_Z 75);
       PageInputs.mkChange PageInputs.StartTime TimeInput.Seconds NaN]
      Page.initial in
  snd (Page.handleExtractFrames b st)
  = [Page.Alert "End time must be greater than start time"] \/
  exists s e o,
    snd (Page.handleExtractFrames b st) = [Page.CallExtractFrames s e o] /\
    (of_Z 0 <=? s)%js = true /\ (s <? e)%js = true.
Proof.
  intros b st.
  exact (proj1 (handlers_call_with_valid_range
                  [PageInputs.mkChange PageInputs.EndTime TimeInput.Seconds
                     (of_Z 75);
                   PageInputs.mkChange PageInputs.StartTime TimeInput.Seconds
                     NaN]
                  b (mkVideo (Some (of_Z 10))) (mkCanvas true)
                  eq_refl eq_refl)).
Defined.

(** ** VideoPlayer *)

Lemma tidy_step
    (file : option VideoPlayer.File) (url : string) (st : VideoPlayer.State) :
  url <> "" ->
  VideoPlayer.objectUrls st
  = (if String.eqb (VideoPlayer.videoUrl st) "" then []
     else [VideoPlayer.videoUrl st]) ->
  let st' := VideoPlayer.handleFileChange file url st in
  VideoPlayer.objectUrls st'
  = (if String.eqb (VideoPlayer.videoUrl st') "" then []
     else [VideoPlayer.videoUrl st']).
Proof.
  intros Hurl Hst st'. subst st'. unfold VideoPlayer.handleFileChange.
  destruct file as [file|]; [|exact Hst]. simpl.
  apply String.eqb_neq in Hurl. rewrite Hurl.
  rewrite Hst.
  destruct (String.eqb (VideoPlayer.videoUrl st) "") eqn:E; simpl.
  - reflexivity.
  - now rewrite String.eqb_refl.
Qed.

(** X25: as long as the URLs that createObjectURL returns are not empty,
    VideoPlayer keeps at most one object URL alive: after any sequence of
    file selections, cancelled ones included, the URLs created and not
    revoked are exactly the URL of the video shown, or none before the
    first file is chosen. *)
Theorem handleFileChange_one_url
    (events : list (option VideoPlayer.File * string)) :
  Forall (fun ev => snd ev <> "") events ->
  let st := VideoPlayer.handleFileChanges events VideoPlayer.initial in
  VideoPlayer.objectUrls st
  = if String.eqb (VideoPlayer.videoUrl st) "" then []
    else [VideoPlayer.videoUrl st].
Proof.
  intros Hev. unfold VideoPlayer.handleFileChanges.
  assert (H0 : VideoPlayer.objectUrls VideoPlayer.initial
               = if String.eqb (VideoPlayer.videoUrl VideoPlayer.initial) ""
                 then [] else [VideoPlayer.videoUrl VideoPlayer.initial])
    by reflexivity.
  revert H0. generalize VideoPlayer.initial.
  induction Hev as [|ev events Hurl Hrest IH]; intros st Hst; simpl.
  - exact Hst.
  - apply IH. now apply tidy_step.
Qed.

Lemma handleFileChange_one_url_witness :
  VideoPlayer.objectUrls
    (VideoPlayer.handleFileChanges
       [(Some (VideoPlayer.mkFile "a.mp4"), "blob:1");
        (None, "blob:2");
        (Some (VideoPlayer.mkFile "b.mp4"), "blob:3")]
       VideoPlayer.initial)
  = ["blob:3"].
Proof.
  apply (handleFileChange_one_url
           [(Some (VideoPlayer.mkFile "a.mp4"), "blob:1");
            (None, "blob:2");
            (Some (VideoPlayer.mkFile "b.mp4"), "blob:3")]).
  repeat constructor; discriminate.
Defined.

(** X24: after any sequence of "Capture Current Frame" attempts,
    capturedFrames is the array before them followed, in order, by one
    record for each attempt made with a video, a canvas with a 2D context
    and a ready state of exactly HAVE_ENOUGH_DATA; the other attempts leave
    no trace.  The record of an attempt carries the data URL of the current
    picture, video.currentTime as timestamp and
    floor(currentTime * videoHeight) as frame number, the product rounded
    to a double before Math.floor. *)
Theorem capture_attempts
    (attempts : list VideoPlayer.Refs) (st : Page.PageState) :
  let captured :=
    flat_map
      (fun refs =>
         match VideoPlayer.captureFrame refs with
         | Some frameInfo => [frameInfo]
         | None => []
         end)
      attempts in
  Page.capturedFrames
    (fold_left (fun s refs => VideoPlayer.captureOnPage refs s) attempts st)
  = Page.capturedFrames st ++ captured /\
  (length captured <= length attempts)%nat /\
  forall refs frameInfo,
    VideoPlayer.captureFrame refs = Some frameInfo <->
    exists video canvas,
      VideoPlayer.videoRef refs = Some video /\
      VideoPlayer.canvasRef refs = Some canvas /\
      has2d canvas = true /\
      VideoPlayer.readyState video = VideoPlayer.HAVE_ENOUGH_DATA /\
      frameInfo
      = {| dataUrl := VideoPlayer.jpeg video;
           timestamp := VideoPlayer.currentTime video;
           frameNumber :=
             Js.floor (VideoPlayer.currentTime video
                       * VideoPlayer.videoHeight video)%f64;
           metadata := None |}.
Proof.
  intros captured. subst captured. split; [|split].
  - revert st; induction attempts as [|refs attempts IH]; intros st; simpl.
    + now rewrite app_nil_r.
    + rewrite IH. unfold VideoPlayer.captureOnPage.
      destruct (VideoPlayer.captureFrame refs); simpl.
      * now rewrite <- app_assoc.
      * reflexivity.
  - induction attempts as [|refs attempts IH]; simpl; [lia|].
    rewrite length_app.
    destruct (VideoPlayer.captureFrame refs); simpl; lia.
  - intros refs frameInfo. unfold VideoPlayer.captureFrame. split.
    + destruct (VideoPlayer.videoRef refs) as [video|]; [|discriminate].
      destruct (VideoPlayer.canvasRef refs) as [canvas|]; [|discriminate].
      destruct (has2d canvas) eqn:Hctx; simpl; [|discriminate].
      destruct (_ =? _)%nat eqn:Hready; [|discriminate].
      intros [= <-]. exists video, canvas. apply Nat.eqb_eq in Hready. auto 10.
    + intros (video & canvas & -> & -> & -> & -> & ->). reflexivity.
Qed.

(** At 0.7 seconds of a video 1080 pixels high the product 0.7 * 1080
    rounds to the double 756, and the frame number is 756. *)
Lemma capture_attempts_witness :
  let video :=
    VideoPlayer.mkVideoElement 4 (Js64.double (7 # 10)) (of_Z 1920) (of_Z 1080)
      "data:image/jpeg" in
  let refs := VideoPlayer.mkRefs (Some video) (Some (mkCanvas true)) in
  VideoPlayer.captureFrame refs
  = Some (mkFrame "data:image/jpeg" (Js64.double (7 # 10)) (of_Z 756) None).
Proof.
  intros video refs.
  apply (proj2 (proj2 (capture_attempts [] Page.initial)) refs).
  exists video, (mkCanvas true).
  split; [reflexivity|]. split; [reflexivity|]. split; [reflexivity|].
  split; [reflexivity|]. vm_compute. reflexivity.
Defined.
